(** * AccumulateState.js: accumulative states for RPG Maker MZ

    A shallow embedding of the plugin [src/AccumulateState.js] and the
    properties of its accumulation engine.

    Conventions of the embedding.
    - A JavaScript number is an exact rational ([Q]); NaN, the infinities
      and rounding are outside the model.  Equality of computed numbers is
      stated with [==] where the representation of a fraction could differ.
    - The two per-battler tables [_stateAccumulations] and [_stateImmunity]
      are JavaScript objects used as maps from state id to number; they are
      [gmap Z _], wrapped in [option] because the code tests for their
      absence ([None] is [undefined]).
    - A method that mutates [this] returns the new battler; a method that
      also returns a value returns a pair.  A [TypeError] raised by reading a
      property of [undefined] is [None].
    - The host engine (rmmz_objects.js) is not part of the plugin.  Its
      methods are parameters of the development: queries read the
      engine-owned part of a battler ([core]), mutators act on the whole
      battler because the engine dispatches on [this] and so re-enters the
      methods the plugin overrides. *)

From Stdlib Require Import ZArith QArith Qminmax Lqa Lia String List.
From stdpp Require Import gmap strings.

Local Open Scope Z_scope.

(** ** Numbers *)

(** [Number.prototype.clamp] of the engine core:
    [Math.min(Math.max(this, min), max)]. *)
Definition clamp (x lo hi : Q) : Q := Qmin (Qmax x lo) hi.

(** [x || 0] on a number or [undefined]: [undefined] gives [0]; a number
    gives itself (the only falsy numbers are the zeros, and NaN which the
    model has not). *)
Definition orZero {A} (zero : A) (x : option A) : A :=
  match x with
  | Some v => v
  | None => zero
  end.

(** ** Game data and plugin parameters *)

(** An entry of [$dataStates], with the two things the plugin reads: the
    engine's "remove at battle end" flag, and the truthiness of the note tag
    found by [PluginManagerEx.findMetaValue(state, ['蓄積型', 'Accumulate'])]. *)
Record RPG_State := {
  removeAtBattleEnd : bool;
  metaAccumulate : bool
}.

(** The parameters of [PluginManagerEx.createParameter(script)] that the
    engine part of the plugin reads.  [AccumulateFormula] is the text of the
    formula; the empty string is falsy. *)
Record Param := {
  AccumulateFormula : string;
  LuckAdjust : bool;
  CertainHit : bool;
  ImmunityRate : Q;
  ResetAccumulateEndBattle : bool
}.

(** The result of [eval] on the formula text, with [a] and [b] in scope:
    a number, or an exception (an [Error] object) with its stack.  A
    formula that completes with something else than a number is outside
    the model. *)
Inductive Completion :=
  | Returns (v : Q)
  | Raises (stack : string).

(** What the operator sees when the formula raises. *)
Inductive Diagnostic :=
  | PlayBuzzer
  | ConsoleWarn (msg : string).

(** An effect of a skill or item: [effect.dataId] and [effect.value1]. *)
Record Effect := {
  dataId : Z;
  value1 : Q
}.

(** The arguments of the ACCUMULATE plugin command, as numbers. *)
Module Args.
Record t := {
  actorId : Z;
  enemyIndex : Z;
  stateId : Z;
  rate : Z
}.
End Args.

(** ** Battlers *)

Record Game_Battler (Core : Type) := mkBattler {
  core : Core;
  _stateAccumulations : option (gmap Z Q);
  _stateImmunity : option (gmap Z Z)
}.
Arguments mkBattler {Core} _ _ _.
Arguments core {Core} _.
Arguments _stateAccumulations {Core} _.
Arguments _stateImmunity {Core} _.

(** ** A reference host

    Modelled from the spec: the host engine's battler methods, which live in
    the engine and not in the plugin.  The spec gives a character "a set of
    currently active status-effect identifiers"; activating an effect adds
    it to that set, removing it takes it out, and clearing the states
    empties the set.  None of these touches the plugin's two tables.  The
    properties below hold for every host; this one runs them on concrete
    battlers. *)
Module Host.

(** The active state ids ([_states]). *)
Definition Core : Type := list Z.

Definition withStates (states : Core) (this : Game_Battler Core)
  : Game_Battler Core :=
  mkBattler states (_stateAccumulations this) (_stateImmunity this).

Definition isStateAffected (states : Core) (stateId : Z) : bool :=
  bool_decide (stateId ∈ states).

Definition addState (stateId : Z) (this : Game_Battler Core)
  : Game_Battler Core :=
  if isStateAffected (core this) stateId then this
  else withStates (stateId :: core this) this.

Definition clearStates (this : Game_Battler Core) : Game_Battler Core :=
  withStates [] this.

Definition eraseState (stateId : Z) (this : Game_Battler Core)
  : Game_Battler Core :=
  withStates (filter (fun s => s ≠ stateId) (core this)) this.

Definition removeState (stateId : Z) (this : Game_Battler Core)
  : Game_Battler Core :=
  eraseState stateId this.

(** The engine removes the active states flagged "remove at battle end"
    through [removeState], which the plugin overrides; that re-entry is what
    the parameters of the development allow for.  The battlers of the
    examples have no such state when the battle ends, so this host leaves
    them as they are. *)
Definition removeBattleStates (this : Game_Battler Core) : Game_Battler Core :=
  this.

(** States 3 and 4 are accumulative; 3 is removed at battle end, 4 is not.
    State 5 is an ordinary state removed at battle end. *)
Definition dataStates (stateId : Z) : option RPG_State :=
  if decide (stateId = 3) then
    Some {| removeAtBattleEnd := true; metaAccumulate := true |}
  else if decide (stateId = 4) then
    Some {| removeAtBattleEnd := false; metaAccumulate := true |}
  else if decide (stateId = 5) then
    Some {| removeAtBattleEnd := true; metaAccumulate := false |}
  else None.

(** The plugin's parameters at their defaults, and three variations. *)
Definition param : Param :=
  {| AccumulateFormula := EmptyString;
     LuckAdjust := true;
     CertainHit := true;
     ImmunityRate := 0;
     ResetAccumulateEndBattle := false |}.

Definition paramReset : Param :=
  {| AccumulateFormula := EmptyString;
     LuckAdjust := true;
     CertainHit := true;
     ImmunityRate := 0;
     ResetAccumulateEndBattle := true |}.

Definition paramFormula (text : string) : Param :=
  {| AccumulateFormula := text;
     LuckAdjust := false;
     CertainHit := true;
     ImmunityRate := 0;
     ResetAccumulateEndBattle := false |}.

Definition paramImmune (text : string) : Param :=
  {| AccumulateFormula := text;
     LuckAdjust := false;
     CertainHit := true;
     ImmunityRate := 100;
     ResetAccumulateEndBattle := false |}.

(** An [eval] that knows the formula of the plugin's help text,
    [a - (1.0 - b)], and raises on every other text. *)
Definition eval (text : string) (a b : Q) : Completion :=
  if String.eqb text "a - (1.0 - b)"
  then Returns (a - (1 - b))%Q
  else Raises "SyntaxError: Unexpected identifier".

(** An action: whether it is a certain hit, and its luck factor. *)
Record Action := {
  certain : bool;
  luck : Q
}.

(** A battler with no active state and the given tables. *)
Definition battler (accumulations : list (Z * Q)) (immunity : list (Z * Z))
  : Game_Battler Core :=
  mkBattler [] (Some (list_to_map accumulations)) (Some (list_to_map immunity)).

(** The host's part of an action on the battlers of the examples: the
    success flag of the action result is no part of a battler here, and the
    host's own item effects leave the battler as it is. *)
Definition makeSuccess (this : Action) (target : Game_Battler Core)
  : Game_Battler Core :=
  target.

Definition itemEffect (this : Action) (target : Game_Battler Core)
  (effect : Effect) : Game_Battler Core :=
  target.

(** Every battler attacks with states 3, 5 and 4, at 50% each. *)
Definition attackStates (this : Core) : list Z := [3; 5; 4].

Definition attackStatesRate (this : Core) (stateId : Z) : Q := 1 # 2.

(** Every battler shows state 3 in its gauge. *)
Definition getGaugeStateId (this : Core) : option Z := Some 3.

End Host.

Section Plugin.

(** The engine-owned fields of a battler ([_states], [_hp], ...). *)
Context {Core : Type}.

Local Abbreviation Battler := (Game_Battler Core).

(** [$dataStates[stateId]]. *)
Variable dataStates : Z -> option RPG_State.

Variable param : Param.

(** [Game_BattlerBase.prototype.isStateAffected]. *)
Variable isStateAffected : Core -> Z -> bool.

(** [Game_Battler.prototype.addState], which the plugin calls but does not
    override. *)
Variable addState : Z -> Battler -> Battler.

(** The methods the plugin wraps, as saved before the override. *)
Variable _Game_BattlerBase_clearStates : Battler -> Battler.
Variable _Game_BattlerBase_eraseState : Z -> Battler -> Battler.
Variable _Game_Battler_removeState : Z -> Battler -> Battler.
Variable _Game_Battler_removeBattleStates : Battler -> Battler.

(** *** Game_BattlerBase *)

Definition clearStateAccumulationsIfNeed (this : Battler) : Battler :=
  {| core := core this;
     _stateAccumulations :=
       match _stateAccumulations this with
       | None => Some ∅
       | Some m => Some m
       end;
     _stateImmunity :=
       match _stateImmunity this with
       | None => Some ∅
       | Some m => Some m
       end |}.

Definition clearStates (this : Battler) : Battler :=
  clearStateAccumulationsIfNeed (_Game_BattlerBase_clearStates this).

(** [delete this._stateAccumulations[stateId]]. *)
Definition deleteAccumulation (stateId : Z) (this : Battler) : Battler :=
  {| core := core this;
     _stateAccumulations := delete stateId <$> _stateAccumulations this;
     _stateImmunity := _stateImmunity this |}.

Definition eraseState (stateId : Z) (this : Battler) : Battler :=
  deleteAccumulation stateId
    (clearStateAccumulationsIfNeed (_Game_BattlerBase_eraseState stateId this)).

Definition removeState (stateId : Z) (this : Battler) : Battler :=
  deleteAccumulation stateId
    (clearStateAccumulationsIfNeed (_Game_Battler_removeState stateId this)).

(** *** BattleManager *)

Definition isStateAccumulate (stateId : Z) : bool :=
  (0 <? stateId) &&
  match dataStates stateId with
  | Some state => metaAccumulate state
  | None => false
  end.

(** *** Game_Battler *)

(** [this._stateAccumulations[stateId]], [undefined] when the key or the
    table is missing.  (Reading through a missing table raises in
    JavaScript; every use below comes after
    [clearStateAccumulationsIfNeed].) *)
Definition accumulationEntry (this : Battler) (stateId : Z) : option Q :=
  m ← _stateAccumulations this; m !! stateId.

Definition immunityEntry (this : Battler) (stateId : Z) : option Z :=
  m ← _stateImmunity this; m !! stateId.

(** [this._stateAccumulations[stateId] = v].  (A write through a missing
    table raises in JavaScript; the write below follows
    [clearStateAccumulationsIfNeed].) *)
Definition setAccumulation (stateId : Z) (v : Q) (this : Battler) : Battler :=
  {| core := core this;
     _stateAccumulations := <[stateId := v]> <$> _stateAccumulations this;
     _stateImmunity := _stateImmunity this |}.

(** [this._stateImmunity[stateId] = n].  (The write below follows
    [clearStateAccumulationsIfNeed] and a call of the host's [addState],
    which is asked to leave the table in place.) *)
Definition setImmunity (stateId : Z) (n : Z) (this : Battler) : Battler :=
  {| core := core this;
     _stateAccumulations := _stateAccumulations this;
     _stateImmunity := <[stateId := n]> <$> _stateImmunity this |}.

(** The new total is the exact sum, where the code rounds the sum of two
    doubles; the sums are taken in the order the code takes them. *)
Definition accumulateState (stateId : Z) (value : Q) (this : Battler)
  : bool * Battler :=
  let this := clearStateAccumulationsIfNeed this in
  if isStateAccumulate stateId then
    let total := (orZero 0 (accumulationEntry this stateId) + value)%Q in
    let this := setAccumulation stateId total this in
    if negb (isStateAffected (core this) stateId) && Qle_bool 1 total then
      let this := addState stateId this in
      let this :=
        setImmunity stateId (orZero 0 (immunityEntry this stateId) + 1) this in
      (true, this)
    else (false, this)
  else (false, this).

(** One turn of the loop [for (const stateId in this._stateAccumulations)]
    of [removeBattleStates], on the table as it is at that turn.
    [state.removeAtBattleEnd] raises when [$dataStates[stateId]] is
    [undefined]. *)
Definition resetAtBattleEnd (table : option (gmap Z Q)) (stateId : Z)
  : option (gmap Z Q) :=
  m ← table;
  state ← dataStates stateId;
  if removeAtBattleEnd state &&
     match m !! stateId with
     | Some v => negb (Qle_bool v 0)
     | None => false
     end
  then Some (<[stateId := 0%Q]> m)
  else Some m.

(** The keys the loop visits.  JavaScript enumerates them in ascending
    order; the turns write to distinct keys, so the order does not show in
    the result.  An exception leaves the loop, and the call, at once. *)
Definition keys (m : gmap Z Q) : list Z := (map_to_list m).*1.

Definition removeBattleStates (this : Battler) : option Battler :=
  let this := _Game_Battler_removeBattleStates this in
  if ResetAccumulateEndBattle param then
    match _stateAccumulations this with
    | None => Some this
    | Some m =>
        m' ← foldl resetAtBattleEnd (Some m) (keys m);
        Some {| core := core this;
                _stateAccumulations := Some m';
                _stateImmunity := _stateImmunity this |}
    end
  else Some this.

Definition getStateImmunity (this : Battler) (stateId : Z) : option Q :=
  m ← _stateImmunity this;
  Some (orZero 0%Q
          ((fun n => inject_Z n * ImmunityRate param / 100)%Q <$> m !! stateId)).

Definition getStateAccumulation (this : Battler) (stateId : Z) : option Q :=
  m ← _stateAccumulations this;
  Some (orZero 0%Q (m !! stateId)).

(** [Game_Actors.prototype.clearStateAccumulationsIfNeed], run by
    [Game_System.prototype.onAfterLoad] on [$gameActors._data]. *)
Definition Game_Actors_clearStateAccumulationsIfNeed
  (_data : list (option Battler)) : list (option Battler) :=
  (fun actor : option Battler => clearStateAccumulationsIfNeed <$> actor) <$> _data.

(** *** Game_Action *)

(** The engine's side of an action on a target. *)
Context {Game_Action : Type}.
Variable isCertainHit : Game_Action -> bool.
Variable lukEffectRate : Game_Action -> Core -> Q.
Variable stateRate : Core -> Z -> Q.
Variable makeSuccess : Game_Action -> Battler -> Battler.
Variable _Game_Action_itemEffectAddNormalState :
  Game_Action -> Battler -> Effect -> Battler.

(** JavaScript's [eval] of the formula text with [a] and [b] bound. *)
Variable eval : string -> Q -> Q -> Completion.

(** Truthiness of a string. *)
Definition truthy (s : string) : bool :=
  match s with
  | EmptyString => false
  | String _ _ => true
  end.

(** Lines 346-358 of [applyResistanceForAccumulateState]: the formula or
    the product with the state rate, with what the [catch] block emits. *)
Definition applyFormula (effectValue : Q) (target : Battler) (stateId : Z)
  : list Diagnostic * Q :=
  if truthy (AccumulateFormula param) then
    let a := effectValue in
    let b := stateRate (core target) stateId in
    match eval (AccumulateFormula param) a b with
    | Returns v => ([], v)
    | Raises stack =>
        ([PlayBuzzer;
          ConsoleWarn (String.append "Script Error : " (AccumulateFormula param));
          ConsoleWarn stack],
         effectValue)
    end
  else ([], (effectValue * stateRate (core target) stateId)%Q).

(** Lines 359-361. *)
Definition applyLuck (this : Game_Action) (target : Battler) (effectValue : Q)
  : Q :=
  if LuckAdjust param
  then (effectValue * lukEffectRate this (core target))%Q
  else effectValue.

Definition applyResistanceForAccumulateState
  (this : Game_Action) (effectValue : Q) (target : Battler) (stateId : Z)
  : list Diagnostic * option Q :=
  let '(log, effectValue) := applyFormula effectValue target stateId in
  let effectValue := applyLuck this target effectValue in
  (log,
   immunity ← getStateImmunity target stateId;
   Some (clamp (effectValue * (1 - immunity)) 0 1)%Q).

(** The value [accumulation] that [itemEffectAddNormalState] hands to
    [accumulateState] (lines 334-337). *)
Definition normalStateAccumulation
  (this : Game_Action) (target : Battler) (effect : Effect)
  : list Diagnostic * option Q :=
  let accumulation := value1 effect in
  if negb (isCertainHit this) || negb (CertainHit param)
  then applyResistanceForAccumulateState this accumulation target (dataId effect)
  else ([], Some accumulation).

Definition itemEffectAddNormalState
  (this : Game_Action) (target : Battler) (effect : Effect)
  : list Diagnostic * option Battler :=
  if isStateAccumulate (dataId effect) then
    let '(log, accumulation) := normalStateAccumulation this target effect in
    (log,
     accumulation ← accumulation;
     let '(result, target) := accumulateState (dataId effect) accumulation target in
     Some (if result then makeSuccess this target else target))
  else ([], Some (_Game_Action_itemEffectAddNormalState this target effect)).

(** *** The ACCUMULATE plugin command *)

(** [$gameActors.actor(id)] and [$gameTroop.members()]. *)
Record World := {
  gameActors : gmap Z Battler;
  gameTroop : list Battler
}.

(** [array[index]] for a number index. *)
Definition at_index {A} (l : list A) (index : Z) : option A :=
  if index <? 0 then None else l !! Z.to_nat index.

Definition ACCUMULATE (args : Args.t) (w : World) : World :=
  let w :=
    match gameActors w !! Args.actorId args with
    | Some actor =>
        {| gameActors :=
             <[Args.actorId args :=
                 (accumulateState (Args.stateId args)
                    (inject_Z (Args.rate args) / 100)%Q actor).2]> (gameActors w);
           gameTroop := gameTroop w |}
    | None => w
    end in
  match at_index (gameTroop w) (Args.enemyIndex args) with
  | Some enemy =>
      {| gameActors := gameActors w;
         gameTroop :=
           <[Z.to_nat (Args.enemyIndex args) :=
               (accumulateState (Args.stateId args)
                  (inject_Z (Args.rate args) / 100)%Q enemy).2]> (gameTroop w) |}
  | None => w
  end.

(** ** Reading the tables, and what the host is asked to respect *)

(** The stored accumulation, a missing entry read as 0. *)
Definition storedAccumulation (this : Battler) (stateId : Z) : Q :=
  orZero 0%Q (accumulationEntry this stateId).

(** The immunity count, a missing entry read as 0. *)
Definition immunityCount (this : Battler) (stateId : Z) : Z :=
  orZero 0 (immunityEntry this stateId).

(** A host method that leaves the immunity table in place and its counts
    as they are. *)
Definition keepsImmunity (f : Battler -> Battler) : Prop :=
  forall this,
    (is_Some (_stateImmunity this) -> is_Some (_stateImmunity (f this))) /\
    forall stateId, immunityCount (f this) stateId = immunityCount this stateId.

(** A host method that writes no new key into the accumulation table (it
    may lose some: the engine re-enters [eraseState] and [removeState]). *)
Definition addsNoKey (f : Battler -> Battler) : Prop :=
  forall this k,
    is_Some (accumulationEntry (f this) k) -> is_Some (accumulationEntry this k).

(** Every key of the accumulation table is a state of the database. *)
Definition keysInDatabase (this : Battler) : Prop :=
  forall k, is_Some (accumulationEntry this k) -> is_Some (dataStates k).

(** The "remove at battle end" flag of a state id. *)
Definition flaggedAtBattleEnd (stateId : Z) : bool :=
  match dataStates stateId with
  | Some state => removeAtBattleEnd state
  | None => false
  end.

(** What one turn of the battle-end loop leaves in an entry. *)
Definition resetValue (stateId : Z) (v : Q) : Q :=
  if flaggedAtBattleEnd stateId && negb (Qle_bool v 0) then 0%Q else v.

(** The calls that reach a battler's tables: the plugin's methods, the
    host's [addState], and the rehydration after a load. *)
Inductive Operation :=
  | OpClearStates
  | OpEraseState (stateId : Z)
  | OpRemoveState (stateId : Z)
  | OpAddState (stateId : Z)
  | OpAccumulateState (stateId : Z) (value : Q)
  | OpRemoveBattleStates
  | OpAfterLoad.

Definition perform (op : Operation) (this : Battler) : option Battler :=
  match op with
  | OpClearStates => Some (clearStates this)
  | OpEraseState stateId => Some (eraseState stateId this)
  | OpRemoveState stateId => Some (removeState stateId this)
  | OpAddState stateId => Some (addState stateId this)
  | OpAccumulateState stateId value =>
      Some (accumulateState stateId value this).2
  | OpRemoveBattleStates => removeBattleStates this
  | OpAfterLoad => Some (clearStateAccumulationsIfNeed this)
  end.

Fixpoint performAll (ops : list Operation) (this : Battler) : option Battler :=
  match ops with
  | [] => Some this
  | op :: ops => this ← perform op this; performAll ops this
  end.

(** No method of the host writes a new key into the accumulation table. *)
Definition hostAddsNoKey : Prop :=
  (forall stateId, addsNoKey (addState stateId)) /\
  addsNoKey _Game_BattlerBase_clearStates /\
  (forall stateId, addsNoKey (_Game_BattlerBase_eraseState stateId)) /\
  (forall stateId, addsNoKey (_Game_Battler_removeState stateId)) /\
  addsNoKey _Game_Battler_removeBattleStates.

(** ** The rest of the plugin *)

(** *** Attack states *)

(** The inherited [attackStates] and [attackStatesRate], which read the
    traits of a battler. *)
Variable _Game_BattlerBase_attackStates : Core -> list Z.
Variable attackStatesRate : Core -> Z -> Q.

(** [Game_BattlerBase.prototype.attackStates], on the host's part of the
    battler (it reads nothing else).  [accumulateFlg] is [None] when the
    method is called without an argument, as the engine calls it. *)
Definition attackStates (this : Core) (accumulateFlg : option bool) : list Z :=
  let accumulateFlg :=
    match accumulateFlg with
    | None => false
    | Some flg => flg
    end in
  let states := _Game_BattlerBase_attackStates this in
  List.filter
    (fun stateId => Bool.eqb (isStateAccumulate stateId) accumulateFlg) states.

(** The host's part of [this.subject()] when it is another battler than
    the target, [None] when the action's subject is its target. *)
Variable otherSubject : Game_Action -> option Core.

Variable _Game_Action_itemEffectAddAttackState :
  Game_Action -> Battler -> Effect -> Battler.

(** The host's part of [this.subject()], the target being what it is now. *)
Definition subject (this : Game_Action) (target : Battler) : Core :=
  match otherSubject this with
  | Some other => other
  | None => core target
  end.

(** One turn of the [forEach] of [itemEffectAddAttackState]; an exception
    of an earlier turn has left the loop. *)
Definition attackStateTurn (this : Game_Action) (effect : Effect)
  (running : list Diagnostic * option Battler) (stateId : Z)
  : list Diagnostic * option Battler :=
  match running with
  | (log, None) => (log, None)
  | (log, Some target) =>
      let accumulation :=
        (value1 effect * attackStatesRate (subject this target) stateId)%Q in
      let '(log', accumulation) :=
        applyResistanceForAccumulateState this accumulation target stateId in
      (log ++ log',
       accumulation ← accumulation;
       let '(result, target) := accumulateState stateId accumulation target in
       Some (if result then makeSuccess this target else target))
  end.

Definition itemEffectAddAttackState
  (this : Game_Action) (target : Battler) (effect : Effect)
  : list Diagnostic * option Battler :=
  let target := _Game_Action_itemEffectAddAttackState this target effect in
  foldl (attackStateTurn this effect) ([], Some target)
    (attackStates (subject this target) (Some true)).

(** *** The gauge *)

(** [getGaugeStateId]: the value of the battler's AccumulateGaugeState tag,
    found by the host in [this.getData()]; [None] when there is none. *)
Variable getGaugeStateId : Core -> option Z.

(** [getGaugeStateAccumulation].  Without a gauge state the key read is
    [undefined], which no write ever uses. *)
Definition getGaugeStateAccumulation (this : Battler) : option Q :=
  match getGaugeStateId (core this) with
  | Some stateId => getStateAccumulation this stateId
  | None => m ← _stateAccumulations this; Some 0%Q
  end.

(** What [updateRate] keeps of a [Sprite_AccumulateState]: the rate last
    drawn ([null] at first) and the frames asked of the gauge sprite, as
    fractions of the bitmap's width, the latest last. *)
Record Sprite_AccumulateState := {
  _rate : option Q;
  frames : list Q
}.

(** [rate !== this._rate], for a number and a number or [null]. *)
Definition differs (rate : Q) (_rate : option Q) : bool :=
  match _rate with
  | Some last => negb (Qeq_bool rate last)
  | None => true
  end.

Definition updateRate (this : Sprite_AccumulateState) (_battler : Battler)
  : option Sprite_AccumulateState :=
  accumulation ← getGaugeStateAccumulation _battler;
  let rate := Qmin accumulation 1 in
  if differs rate (_rate this)
  then Some {| _rate := Some rate; frames := frames this ++ [rate] |}
  else Some this.

(** *** What more the host is asked to respect *)

(** A host method that leaves every accumulation entry as it is. *)
Definition keepsAccumulations (f : Battler -> Battler) : Prop :=
  forall this stateId,
    accumulationEntry (f this) stateId = accumulationEntry this stateId.

(** Every key of the accumulation table is an accumulative state. *)
Definition keysAccumulative (this : Battler) : Prop :=
  forall k, is_Some (accumulationEntry this k) -> isStateAccumulate k = true.

(** ** The host's side of the contract

    Only the plugin writes the immunity table, so the host's methods leave
    it as it is; [clearStates] of the host resets [_states] and
    [_stateTurns] and nothing else; and [addState] leaves the accumulation
    of the state it adds.  Each property below names the part it uses. *)

Hypothesis addState_keepsImmunity : forall stateId, keepsImmunity (addState stateId).
Hypothesis addState_keepsAccumulation : forall stateId this,
  accumulationEntry (addState stateId this) stateId = accumulationEntry this stateId.
Hypothesis clearStates_keepsTables : forall this,
  _stateAccumulations (_Game_BattlerBase_clearStates this) = _stateAccumulations this /\
  _stateImmunity (_Game_BattlerBase_clearStates this) = _stateImmunity this.
Hypothesis eraseState_keepsImmunity :
  forall stateId, keepsImmunity (_Game_BattlerBase_eraseState stateId).
Hypothesis removeState_keepsImmunity :
  forall stateId, keepsImmunity (_Game_Battler_removeState stateId).
Hypothesis removeBattleStates_keepsImmunity :
  keepsImmunity _Game_Battler_removeBattleStates.

(** ** Reading and writing the tables *)

Lemma accumulationEntry_clear (this : Battler) (stateId : Z) :
  accumulationEntry (clearStateAccumulationsIfNeed this) stateId
  = accumulationEntry this stateId.
Proof.
  unfold accumulationEntry, clearStateAccumulationsIfNeed; simpl.
  destruct (_stateAccumulations this); simpl; [reflexivity | apply lookup_empty].
Qed.

Lemma immunityEntry_clear (this : Battler) (stateId : Z) :
  immunityEntry (clearStateAccumulationsIfNeed this) stateId
  = immunityEntry this stateId.
Proof.
  unfold immunityEntry, clearStateAccumulationsIfNeed; simpl.
  destruct (_stateImmunity this); simpl; [reflexivity | apply lookup_empty].
Qed.

Lemma clear_tables_present (this : Battler) :
  is_Some (_stateAccumulations (clearStateAccumulationsIfNeed this)) /\
  is_Some (_stateImmunity (clearStateAccumulationsIfNeed this)).
Proof.
  unfold clearStateAccumulationsIfNeed; simpl.
  destruct (_stateAccumulations this), (_stateImmunity this); split; eauto.
Qed.

Lemma accumulationEntry_set (this : Battler) (stateId k : Z) (v : Q) :
  is_Some (_stateAccumulations this) ->
  accumulationEntry (setAccumulation stateId v this) k
  = if decide (stateId = k) then Some v else accumulationEntry this k.
Proof.
  intros [m Hm]. unfold accumulationEntry, setAccumulation; simpl.
  rewrite Hm; simpl. apply lookup_insert.
Qed.

Lemma immunityEntry_set (this : Battler) (stateId k : Z) (n : Z) :
  is_Some (_stateImmunity this) ->
  immunityEntry (setImmunity stateId n this) k
  = if decide (stateId = k) then Some n else immunityEntry this k.
Proof.
  intros [m Hm]. unfold immunityEntry, setImmunity; simpl.
  rewrite Hm; simpl. apply lookup_insert.
Qed.

Lemma immunityEntry_setAccumulation (this : Battler) (stateId k : Z) (v : Q) :
  immunityEntry (setAccumulation stateId v this) k = immunityEntry this k.
Proof. reflexivity. Qed.

Lemma accumulationEntry_setImmunity (this : Battler) (stateId k : Z) (n : Z) :
  accumulationEntry (setImmunity stateId n this) k = accumulationEntry this k.
Proof. reflexivity. Qed.

Lemma immunityCount_clear (this : Battler) (stateId : Z) :
  immunityCount (clearStateAccumulationsIfNeed this) stateId
  = immunityCount this stateId.
Proof. unfold immunityCount. now rewrite immunityEntry_clear. Qed.

Lemma storedAccumulation_clear (this : Battler) (stateId : Z) :
  storedAccumulation (clearStateAccumulationsIfNeed this) stateId
  = storedAccumulation this stateId.
Proof. unfold storedAccumulation. now rewrite accumulationEntry_clear. Qed.

(** [accumulateState] by cases, on the battler after
    [clearStateAccumulationsIfNeed] and the write of the new total. *)
Lemma accumulateState_unfold (stateId : Z) (value : Q) (this : Battler) :
  let total := (storedAccumulation this stateId + value)%Q in
  let this1 :=
    setAccumulation stateId total (clearStateAccumulationsIfNeed this) in
  accumulateState stateId value this =
    if isStateAccumulate stateId then
      if negb (isStateAffected (core this) stateId) && Qle_bool 1 total then
        (true,
         setImmunity stateId
           (immunityCount (addState stateId this1) stateId + 1)
           (addState stateId this1))
      else (false, this1)
    else (false, clearStateAccumulationsIfNeed this).
Proof.
  intros total this1. unfold accumulateState.
  destruct (isStateAccumulate stateId); [| reflexivity].
  fold (storedAccumulation (clearStateAccumulationsIfNeed this) stateId).
  rewrite storedAccumulation_clear. reflexivity.
Qed.

(** After a load every actor has both tables. *)
Lemma Game_Actors_tables_present (_data : list (option Battler)) (actor : Battler) :
  Some actor ∈ Game_Actors_clearStateAccumulationsIfNeed _data ->
  is_Some (_stateAccumulations actor) /\ is_Some (_stateImmunity actor).
Proof.
  unfold Game_Actors_clearStateAccumulationsIfNeed.
  intros ([loaded |] & Hactor & _)%list_elem_of_fmap; [| discriminate].
  injection Hactor as ->. apply clear_tables_present.
Qed.

(** ** accumulateState *)

(** C1: [accumulateState stateId value] on an accumulative state stores the
    previous accumulation (0 when the entry is missing) plus [value].  It
    returns [true] exactly when the state is accumulative, the battler does
    not have the state and the new total is at least 1; the battler is then
    passed to the host's [addState] and the immunity count of the state goes
    up by 1.  When it returns [false] the host's part of the battler and the
    immunity counts are as before.  For a state that is not accumulative the
    call returns [false] and changes no stored value (it only creates the
    tables when they are missing). *)
Theorem accumulateState_spec (stateId : Z) (value : Q) (this : Battler) :
  let result := (accumulateState stateId value this).1 in
  let this' := (accumulateState stateId value this).2 in
  let total := (storedAccumulation this stateId + value)%Q in
  (result = true <->
     isStateAccumulate stateId = true /\
     isStateAffected (core this) stateId = false /\
     (1 <= total)%Q) /\
  (isStateAccumulate stateId = true ->
     accumulationEntry this' stateId = Some total) /\
  (result = true ->
     this' =
       setImmunity stateId (immunityCount this stateId + 1)
         (addState stateId
            (setAccumulation stateId total (clearStateAccumulationsIfNeed this))) /\
     immunityCount this' stateId = immunityCount this stateId + 1) /\
  (result = false ->
     core this' = core this /\
     forall s, immunityCount this' s = immunityCount this s) /\
  (isStateAccumulate stateId = false ->
     this' = clearStateAccumulationsIfNeed this /\
     (forall s, accumulationEntry this' s = accumulationEntry this s) /\
     (forall s, immunityEntry this' s = immunityEntry this s)).
Proof.
  intros result this' total. subst result this'.
  rewrite accumulateState_unfold. fold total.
  destruct (clear_tables_present this) as [Hacc Himm].
  set (this1 := setAccumulation stateId total (clearStateAccumulationsIfNeed this)).
  assert (accumulationEntry this1 stateId = Some total) as Hentry.
  { unfold this1. rewrite accumulationEntry_set by assumption.
    now rewrite decide_True. }
  assert (forall s, immunityCount this1 s = immunityCount this s) as Hsame.
  { intros s. unfold this1, immunityCount.
    now rewrite immunityEntry_setAccumulation, immunityEntry_clear. }
  destruct (isStateAccumulate stateId) eqn:Hkind;
    [destruct (isStateAffected (core this) stateId) eqn:Haff;
       [| destruct (Qle_bool 1 total) eqn:Hle] |];
    simpl; split_and!; try discriminate; try (intros _).
  - split; [discriminate | intros (_ & Hcontra & _); discriminate].
  - exact Hentry.
  - split; [reflexivity | exact Hsame].
  - apply Qle_bool_iff in Hle. tauto.
  - rewrite accumulationEntry_setImmunity.
    now rewrite addState_keepsAccumulation.
  - destruct (addState_keepsImmunity stateId this1) as [Hpres Hcount].
    rewrite Hcount, Hsame. split; [reflexivity |].
    unfold immunityCount at 1.
    rewrite immunityEntry_set by (apply Hpres; exact Himm).
    now rewrite decide_True.
  - split; [discriminate |].
    intros (_ & _ & Hle'). apply Qle_bool_iff in Hle'. congruence.
  - exact Hentry.
  - split; [reflexivity | exact Hsame].
  - split; [discriminate | intros (Hcontra & _); discriminate].
  - split; [reflexivity | apply immunityCount_clear].
  - split_and!; [reflexivity | apply accumulationEntry_clear
                 | apply immunityEntry_clear].
Qed.

(** ** Clearing and removing states *)

(** C5 (as amended): [clearStates] leaves both tables in place.  A table
    that is missing after the host's [clearStates] is created empty; a
    table that is there keeps every entry, so the stored accumulations and
    the immunity counts are what they were before the call. *)
Theorem clearStates_keeps_entries (this : Battler) :
  _stateAccumulations (clearStates this)
    = Some (default ∅ (_stateAccumulations this)) /\
  _stateImmunity (clearStates this)
    = Some (default ∅ (_stateImmunity this)) /\
  forall stateId,
    accumulationEntry (clearStates this) stateId = accumulationEntry this stateId /\
    immunityEntry (clearStates this) stateId = immunityEntry this stateId.
Proof.
  destruct (clearStates_keepsTables this) as [Hacc Himm].
  unfold clearStates. split_and!.
  - unfold clearStateAccumulationsIfNeed; simpl. rewrite Hacc.
    now destruct (_stateAccumulations this).
  - unfold clearStateAccumulationsIfNeed; simpl. rewrite Himm.
    now destruct (_stateImmunity this).
  - intros stateId. rewrite accumulationEntry_clear, immunityEntry_clear.
    unfold accumulationEntry, immunityEntry. now rewrite Hacc, Himm.
Qed.

Lemma deleteAccumulation_entry (this : Battler) (stateId : Z) :
  is_Some (_stateAccumulations this) ->
  getStateAccumulation (deleteAccumulation stateId this) stateId = Some 0%Q /\
  accumulationEntry (deleteAccumulation stateId this) stateId = None.
Proof.
  intros [m Hm].
  unfold getStateAccumulation, accumulationEntry, deleteAccumulation; simpl.
  rewrite Hm; simpl. now rewrite lookup_delete_eq.
Qed.

Lemma wrapped_removal_immunity (f : Battler -> Battler) (stateId k : Z)
  (this : Battler) :
  keepsImmunity f ->
  immunityCount (deleteAccumulation stateId (clearStateAccumulationsIfNeed (f this))) k
  = immunityCount this k.
Proof.
  intros Hf. destruct (Hf this) as [_ Hcount].
  change (immunityCount (clearStateAccumulationsIfNeed (f this)) k
          = immunityCount this k).
  now rewrite immunityCount_clear.
Qed.

(** C6 (as amended): after [eraseState stateId] and after
    [removeState stateId] the stored accumulation of [stateId] is 0 (the
    entry is deleted), and every immunity count is what it was before the
    removal.  [clearStates] is no such removal path: it calls neither of the
    two, so a state that leaves the active set with all the others (death,
    a clear-all effect) keeps its stored accumulation, and every immunity
    count stays as well. *)
Theorem removal_zeroes_accumulation (stateId : Z) (this : Battler) :
  (getStateAccumulation (eraseState stateId this) stateId = Some 0%Q /\
   storedAccumulation (eraseState stateId this) stateId = 0%Q /\
   forall k, immunityCount (eraseState stateId this) k = immunityCount this k) /\
  (getStateAccumulation (removeState stateId this) stateId = Some 0%Q /\
   storedAccumulation (removeState stateId this) stateId = 0%Q /\
   forall k, immunityCount (removeState stateId this) k = immunityCount this k) /\
  (getStateAccumulation (clearStates this) stateId
   = Some (storedAccumulation this stateId) /\
   storedAccumulation (clearStates this) stateId
   = storedAccumulation this stateId /\
   (forall k, immunityCount (clearStates this) k = immunityCount this k) /\
   ((forall b s,
       isStateAffected (core (_Game_BattlerBase_clearStates b)) s = false) ->
    isStateAffected (core (clearStates this)) stateId = false)).
Proof.
  assert (forall k,
            accumulationEntry (clearStates this) k = accumulationEntry this k)
    as Hkept.
  { intros k. unfold clearStates. rewrite accumulationEntry_clear.
    unfold accumulationEntry.
    now rewrite (proj1 (clearStates_keepsTables this)). }
  unfold eraseState, removeState. split_and!.
  - apply deleteAccumulation_entry, clear_tables_present.
  - unfold storedAccumulation.
    now rewrite (proj2 (deleteAccumulation_entry _ stateId
                          (proj1 (clear_tables_present _)))).
  - intros k. now apply wrapped_removal_immunity.
  - apply deleteAccumulation_entry, clear_tables_present.
  - unfold storedAccumulation.
    now rewrite (proj2 (deleteAccumulation_entry _ stateId
                          (proj1 (clear_tables_present _)))).
  - intros k. now apply wrapped_removal_immunity.
  - unfold storedAccumulation. rewrite <- Hkept.
    unfold getStateAccumulation, accumulationEntry, clearStates.
    destruct (clear_tables_present (_Game_BattlerBase_clearStates this))
      as [[m Hm] _].
    now rewrite Hm.
  - unfold storedAccumulation. now rewrite Hkept.
  - intros k. unfold clearStates, immunityCount. rewrite immunityEntry_clear.
    unfold immunityEntry.
    now rewrite (proj2 (clearStates_keepsTables this)).
  - intros Hcleared. apply Hcleared.
Qed.

(** ** The reset at the end of a battle *)

(** One turn of the loop, on a table that has the key's state defined. *)
Lemma resetAtBattleEnd_turn (m : gmap Z Q) (stateId : Z) :
  is_Some (dataStates stateId) ->
  exists m',
    resetAtBattleEnd (Some m) stateId = Some m' /\
    forall k,
      m' !! k = if decide (k = stateId) then resetValue stateId <$> m !! k
                else m !! k.
Proof.
  intros [state Hstate]. unfold resetAtBattleEnd, resetValue, flaggedAtBattleEnd.
  simpl. rewrite Hstate. simpl.
  destruct (m !! stateId) as [v |] eqn:Hv.
  - destruct (removeAtBattleEnd state && negb (Qle_bool v 0)) eqn:Hreset.
    + eexists; split; [reflexivity |]. intros k. case_decide as Hk.
      * subst k. rewrite lookup_insert_eq, Hv. simpl. now rewrite Hreset.
      * now rewrite lookup_insert_ne.
    + eexists; split; [reflexivity |]. intros k. case_decide as Hk.
      * subst k. rewrite Hv. simpl. now rewrite Hreset.
      * reflexivity.
  - rewrite andb_false_r.
    eexists; split; [reflexivity |]. intros k. case_decide as Hk.
    + subst k. now rewrite Hv.
    + reflexivity.
Qed.

(** The whole loop over distinct keys. *)
Lemma resetAtBattleEnd_loop (l : list Z) :
  forall m : gmap Z Q,
    NoDup l ->
    (forall k, k ∈ l -> is_Some (dataStates k)) ->
    exists m',
      foldl resetAtBattleEnd (Some m) l = Some m' /\
      forall k,
        m' !! k = if decide (k ∈ l) then resetValue k <$> m !! k else m !! k.
Proof.
  induction l as [| stateId l IH]; intros m Hnodup Hdefined.
  - exists m. split; [reflexivity |]. intros k.
    rewrite decide_False; [reflexivity | apply not_elem_of_nil].
  - apply NoDup_cons in Hnodup as [Hfresh Hnodup].
    destruct (resetAtBattleEnd_turn m stateId) as (m1 & Hturn & Hm1).
    { apply Hdefined. left. }
    destruct (IH m1 Hnodup) as (m' & Hloop & Hm').
    { intros k Hk. apply Hdefined. now right. }
    exists m'. split; [now rewrite <- Hloop, <- Hturn |].
    intros k. rewrite Hm', Hm1.
    destruct (decide (k = stateId)) as [-> | Hne].
    + rewrite (decide_False (P := stateId ∈ l)) by assumption.
      rewrite decide_True; [reflexivity | left].
    + destruct (decide (k ∈ l)) as [Hin | Hout].
      * rewrite decide_True; [reflexivity | now right].
      * rewrite decide_False; [reflexivity |].
        rewrite elem_of_cons. tauto.
Qed.

Lemma elem_of_keys (m : gmap Z Q) (k : Z) : k ∈ keys m <-> is_Some (m !! k).
Proof.
  unfold keys. rewrite list_elem_of_fmap. split.
  - intros ([k' v] & -> & Hin). apply elem_of_map_to_list in Hin. eauto.
  - intros [v Hv]. exists (k, v). split; [reflexivity |].
    now apply elem_of_map_to_list.
Qed.

(** C7: let [base] be the battler as the host's [removeBattleStates]
    leaves it, every key of its accumulation table being a state of the
    database (which [performAll_keysInDatabase] below shows of every battler
    the operations reach).  With the reset parameter on, [removeBattleStates]
    returns a battler in which an entry is 0 when its state is flagged
    "remove at battle end" and its value was above 0, and is unchanged
    otherwise; no key appears or disappears, and the rest of the battler is
    [base].  With the parameter off the result is [base]. *)
Theorem removeBattleStates_resets_flagged (this : Battler) :
  let base := _Game_Battler_removeBattleStates this in
  keysInDatabase base ->
  (ResetAccumulateEndBattle param = true ->
   exists this',
     removeBattleStates this = Some this' /\
     core this' = core base /\
     _stateImmunity this' = _stateImmunity base /\
     forall k,
       match accumulationEntry base k with
       | Some v =>
           (flaggedAtBattleEnd k = true /\ (0 < v)%Q ->
            accumulationEntry this' k = Some 0%Q) /\
           (~ (flaggedAtBattleEnd k = true /\ (0 < v)%Q) ->
            accumulationEntry this' k = Some v)
       | None => accumulationEntry this' k = None
       end) /\
  (ResetAccumulateEndBattle param = false ->
   removeBattleStates this = Some base).
Proof.
  intros base Hdefined. unfold removeBattleStates. fold base. split.
  - intros ->. unfold keysInDatabase, accumulationEntry in Hdefined |- *.
    destruct (_stateAccumulations base) as [m |] eqn:Htable;
      simpl in Hdefined |- *.
    + destruct (resetAtBattleEnd_loop (keys m) m) as (m' & -> & Hm').
      { apply NoDup_fst_map_to_list. }
      { intros k Hk. apply Hdefined. now apply elem_of_keys. }
      simpl. eexists. split; [reflexivity |]. simpl. split_and!; try reflexivity.
      intros k. rewrite Hm'. destruct (m !! k) as [v |] eqn:Hv.
      * rewrite decide_True by (apply elem_of_keys; rewrite Hv; eauto).
        simpl. unfold resetValue.
        destruct (flaggedAtBattleEnd k); simpl.
        -- destruct (Qle_bool v 0) eqn:Hle; simpl.
           ++ apply Qle_bool_iff in Hle. split; [| reflexivity].
              intros [_ Hpos]. lra.
           ++ split; [reflexivity |]. intros Hnot. exfalso. apply Hnot.
              split; [reflexivity |]. apply Qnot_le_lt.
              rewrite <- Qle_bool_iff, Hle. discriminate.
        -- split; [| reflexivity]. intros [Hcontra _]. discriminate.
      * rewrite decide_False; [reflexivity |].
        rewrite elem_of_keys, Hv. now intros [? ?].
    + exists base. split_and!; try reflexivity. intros k. now rewrite Htable.
  - intros ->. reflexivity.
Qed.

(** ** The keys of the accumulation table *)

Lemma accumulationEntry_delete (this : Battler) (stateId k : Z) :
  accumulationEntry (deleteAccumulation stateId this) k
  = if decide (stateId = k) then None else accumulationEntry this k.
Proof.
  unfold accumulationEntry, deleteAccumulation; simpl.
  destruct (_stateAccumulations this) as [m |]; simpl.
  - apply lookup_delete.
  - now case_decide.
Qed.

Lemma isStateAccumulate_in_database (stateId : Z) :
  isStateAccumulate stateId = true -> is_Some (dataStates stateId).
Proof.
  unfold isStateAccumulate. intros [_ Hmeta]%andb_true_iff.
  destruct (dataStates stateId); [eauto | discriminate].
Qed.

(** The battle-end loop keeps the keys of the table. *)
Lemma removeBattleStates_keys (this this' : Battler) (k : Z) :
  keysInDatabase (_Game_Battler_removeBattleStates this) ->
  removeBattleStates this = Some this' ->
  is_Some (accumulationEntry this' k) ->
  is_Some (accumulationEntry (_Game_Battler_removeBattleStates this) k).
Proof.
  unfold removeBattleStates, keysInDatabase.
  set (base := _Game_Battler_removeBattleStates this). intros Hdefined.
  destruct (ResetAccumulateEndBattle param); [| now intros [= <-]].
  unfold accumulationEntry in Hdefined |- *.
  destruct (_stateAccumulations base) as [m |] eqn:Htable; simpl in Hdefined |- *.
  - destruct (resetAtBattleEnd_loop (keys m) m) as (m' & -> & Hm').
    { apply NoDup_fst_map_to_list. }
    { intros j Hj. apply Hdefined. now apply elem_of_keys. }
    simpl. intros [= <-]. simpl. rewrite Hm'.
    case_decide; [| trivial]. now intros ?%fmap_is_Some.
  - intros [= <-]. now rewrite Htable.
Qed.

Lemma removeBattleStates_returns (this : Battler) :
  keysInDatabase (_Game_Battler_removeBattleStates this) ->
  exists this', removeBattleStates this = Some this'.
Proof.
  unfold removeBattleStates, keysInDatabase.
  set (base := _Game_Battler_removeBattleStates this). intros Hdefined.
  destruct (ResetAccumulateEndBattle param); [| eauto].
  unfold accumulationEntry in Hdefined.
  destruct (_stateAccumulations base) as [m |] eqn:Htable; simpl in Hdefined;
    [| eauto].
  destruct (resetAtBattleEnd_loop (keys m) m) as (m' & -> & _).
  - apply NoDup_fst_map_to_list.
  - intros j Hj. apply Hdefined. now apply elem_of_keys.
  - simpl. eauto.
Qed.

(** Every operation keeps the keys of the table in the database. *)
Lemma perform_keysInDatabase (op : Operation) (this this' : Battler) :
  hostAddsNoKey ->
  keysInDatabase this ->
  perform op this = Some this' ->
  keysInDatabase this'.
Proof.
  intros (Hadd & Hclear & Herase & Hremove & Hbattle) Hkeys.
  destruct op as [| s | s | s | s v | |]; simpl.
  - intros [= <-] k. unfold clearStates. rewrite accumulationEntry_clear.
    intros Hk. now apply Hkeys, Hclear.
  - intros [= <-] k. unfold eraseState.
    rewrite accumulationEntry_delete, accumulationEntry_clear.
    case_decide; [now intros [? ?] |]. intros Hk. now apply Hkeys, (Herase s).
  - intros [= <-] k. unfold removeState.
    rewrite accumulationEntry_delete, accumulationEntry_clear.
    case_decide; [now intros [? ?] |]. intros Hk. now apply Hkeys, (Hremove s).
  - intros [= <-] k Hk. now apply Hkeys, (Hadd s).
  - intros [= <-] k. rewrite accumulateState_unfold.
    assert (is_Some (accumulationEntry (clearStateAccumulationsIfNeed this) k) ->
            is_Some (dataStates k)) as Hclean
      by (rewrite accumulationEntry_clear; apply Hkeys).
    destruct (isStateAccumulate s) eqn:Hkind; simpl; [| exact Hclean].
    assert (is_Some
              (accumulationEntry
                 (setAccumulation s (storedAccumulation this s + v)%Q
                    (clearStateAccumulationsIfNeed this)) k) ->
            is_Some (dataStates k)) as Hwritten.
    { rewrite accumulationEntry_set by apply clear_tables_present.
      case_decide as Hk; [| exact Hclean].
      subst k. intros _. now apply isStateAccumulate_in_database. }
    destruct (negb (isStateAffected (core this) s) && Qle_bool 1 _); simpl;
      [| exact Hwritten].
    rewrite accumulationEntry_setImmunity. intros Hk.
    now apply Hwritten, (Hadd s).
  - intros Hdone k Hk.
    assert (keysInDatabase (_Game_Battler_removeBattleStates this)) as Hbase
      by (intros j Hj; now apply Hkeys, Hbattle).
    apply Hbase. exact (removeBattleStates_keys _ _ _ Hbase Hdone Hk).
  - intros [= <-] k. rewrite accumulationEntry_clear. apply Hkeys.
Qed.

(** So no sequence of operations raises, and the keys stay in the
    database all along. *)
Lemma performAll_keysInDatabase (ops : list Operation) :
  hostAddsNoKey ->
  forall this,
    keysInDatabase this ->
    exists this', performAll ops this = Some this' /\ keysInDatabase this'.
Proof.
  intros Hhost. induction ops as [| op ops IH]; intros this Hkeys.
  - exists this. now split.
  - assert (exists this1, perform op this = Some this1) as [this1 Hop].
    { destruct op; simpl; eauto.
      destruct Hhost as (_ & _ & _ & _ & Hbattle).
      apply removeBattleStates_returns.
      intros k Hk. now apply Hkeys, Hbattle. }
    destruct (IH this1 (perform_keysInDatabase _ _ _ Hhost Hkeys Hop))
      as (this' & Hrun & Hkeys').
    exists this'. simpl. rewrite Hop. now split.
Qed.

(** ** Activation happens once *)

Lemma keepsImmunity_count (f : Battler -> Battler) (this : Battler) (k : Z) :
  keepsImmunity f -> immunityCount (f this) k = immunityCount this k.
Proof. intros Hf. apply Hf. Qed.

(** While the state is active, [accumulateState] only moves the
    accumulation. *)
Lemma accumulateState_while_active (stateId : Z) (value : Q) (this : Battler) :
  isStateAffected (core this) stateId = true ->
  accumulateState stateId value this =
    (false,
     if isStateAccumulate stateId
     then setAccumulation stateId (storedAccumulation this stateId + value)%Q
            (clearStateAccumulationsIfNeed this)
     else clearStateAccumulationsIfNeed this).
Proof.
  intros Haff. rewrite accumulateState_unfold, Haff. simpl.
  now destruct (isStateAccumulate stateId).
Qed.

(** The immunity counts after an activation. *)
Lemma activation_immunity (stateId k : Z) (this : Battler) :
  is_Some (_stateImmunity this) ->
  immunityCount
    (setImmunity stateId (immunityCount (addState stateId this) stateId + 1)
       (addState stateId this)) k
  = immunityCount this k + (if decide (stateId = k) then 1 else 0).
Proof.
  intros Himm. destruct (addState_keepsImmunity stateId this) as [Hpres Hcount].
  unfold immunityCount at 1. rewrite immunityEntry_set by auto.
  case_decide as Hk.
  - subst k. simpl. now rewrite Hcount.
  - fold (immunityCount (addState stateId this) k). rewrite Hcount. lia.
Qed.

Lemma removeBattleStates_immunity (this this' : Battler) (k : Z) :
  removeBattleStates this = Some this' ->
  immunityCount this' k = immunityCount this k.
Proof.
  unfold removeBattleStates.
  set (base := _Game_Battler_removeBattleStates this).
  assert (immunityCount base k = immunityCount this k) as Hbase
    by apply removeBattleStates_keepsImmunity.
  destruct (ResetAccumulateEndBattle param).
  - destruct (_stateAccumulations base) as [m |].
    + destruct (foldl resetAtBattleEnd (Some m) (keys m)); simpl; [| discriminate].
      intros [= <-]. exact Hbase.
    + intros [= <-]. exact Hbase.
  - intros [= <-]. exact Hbase.
Qed.

Lemma perform_immunity (op : Operation) (this this' : Battler) (k : Z) :
  perform op this = Some this' ->
  immunityCount this k <= immunityCount this' k.
Proof.
  destruct op as [| s | s | s | s v | |]; simpl.
  - intros [= <-]. unfold clearStates. rewrite immunityCount_clear.
    unfold immunityCount, immunityEntry.
    now rewrite (proj2 (clearStates_keepsTables this)).
  - intros [= <-]. unfold eraseState.
    now rewrite wrapped_removal_immunity by apply eraseState_keepsImmunity.
  - intros [= <-]. unfold removeState.
    now rewrite wrapped_removal_immunity by apply removeState_keepsImmunity.
  - intros [= <-]. now rewrite keepsImmunity_count by apply addState_keepsImmunity.
  - intros [= <-]. rewrite accumulateState_unfold.
    set (this1 := setAccumulation s (storedAccumulation this s + v)%Q
                    (clearStateAccumulationsIfNeed this)).
    assert (immunityCount this1 k = immunityCount this k) as Hsame.
    { unfold this1, immunityCount.
      now rewrite immunityEntry_setAccumulation, immunityEntry_clear. }
    destruct (isStateAccumulate s); simpl; [| now rewrite immunityCount_clear].
    destruct (negb (isStateAffected (core this) s) && Qle_bool 1 _); simpl;
      [| now rewrite Hsame].
    rewrite activation_immunity, Hsame
      by (unfold this1; apply clear_tables_present).
    case_decide; lia.
  - intros Hdone. now rewrite (removeBattleStates_immunity _ _ _ Hdone).
  - intros [= <-]. now rewrite immunityCount_clear.
Qed.

(** C8: while a battler has the state, [accumulateState] for that state
    returns [false], leaves the host's part of the battler alone (the state
    is not added again) and changes no immunity count.  And along every
    sequence of operations on a battler, no immunity count ever goes
    down. *)
Theorem activation_is_one_shot :
  (forall stateId value this,
     isStateAffected (core this) stateId = true ->
     (accumulateState stateId value this).1 = false /\
     core (accumulateState stateId value this).2 = core this /\
     forall k,
       immunityCount (accumulateState stateId value this).2 k
       = immunityCount this k) /\
  (forall ops this this',
     performAll ops this = Some this' ->
     forall k, immunityCount this k <= immunityCount this' k).
Proof.
  split.
  - intros stateId value this Haff.
    rewrite accumulateState_while_active by assumption. simpl.
    destruct (isStateAccumulate stateId); split_and!; try reflexivity;
      intros k; unfold immunityCount.
    + now rewrite immunityEntry_setAccumulation, immunityEntry_clear.
    + now rewrite immunityEntry_clear.
  - induction ops as [| op ops IH]; intros this this' Hrun k.
    + injection Hrun as <-. lia.
    + simpl in Hrun. destruct (perform op this) as [this1 |] eqn:Hop;
        [| discriminate].
      simpl in Hrun. pose proof (perform_immunity _ _ _ k Hop).
      pose proof (IH _ _ Hrun k). lia.
Qed.


(** ** Accumulations below zero *)

(** The entry written by [accumulateState] for an accumulative state. *)
Lemma accumulateState_entry (stateId : Z) (value : Q) (this : Battler) :
  isStateAccumulate stateId = true ->
  accumulationEntry (accumulateState stateId value this).2 stateId
  = Some (storedAccumulation this stateId + value)%Q.
Proof.
  intros Hkind. rewrite accumulateState_unfold, Hkind.
  set (total := (storedAccumulation this stateId + value)%Q).
  assert (accumulationEntry
            (setAccumulation stateId total (clearStateAccumulationsIfNeed this))
            stateId = Some total) as Hentry.
  { rewrite accumulationEntry_set by apply clear_tables_present.
    now rewrite decide_True. }
  destruct (negb (isStateAffected (core this) stateId) && Qle_bool 1 total);
    simpl; [| exact Hentry].
  now rewrite accumulationEntry_setImmunity, addState_keepsAccumulation.
Qed.

Lemma ACCUMULATE_actor (args : Args.t) (w : World) (actor : Battler) :
  gameActors w !! Args.actorId args = Some actor ->
  gameActors (ACCUMULATE args w) !! Args.actorId args
  = Some (accumulateState (Args.stateId args)
            (inject_Z (Args.rate args) / 100)%Q actor).2.
Proof.
  intros Hactor. unfold ACCUMULATE. rewrite Hactor. simpl.
  destruct (at_index (gameTroop w) (Args.enemyIndex args)); simpl;
    apply lookup_insert_eq.
Qed.

Lemma ACCUMULATE_enemy (args : Args.t) (w : World) (enemy : Battler) :
  at_index (gameTroop w) (Args.enemyIndex args) = Some enemy ->
  at_index (gameTroop (ACCUMULATE args w)) (Args.enemyIndex args)
  = Some (accumulateState (Args.stateId args)
            (inject_Z (Args.rate args) / 100)%Q enemy).2.
Proof.
  intros Henemy. unfold ACCUMULATE.
  assert (gameTroop
            match gameActors w !! Args.actorId args with
            | Some actor =>
                {| gameActors :=
                     <[Args.actorId args :=
                         (accumulateState (Args.stateId args)
                            (inject_Z (Args.rate args) / 100)%Q actor).2]>
                       (gameActors w);
                   gameTroop := gameTroop w |}
            | None => w
            end = gameTroop w) as Htroop
    by now destruct (gameActors w !! Args.actorId args).
  rewrite Htroop, Henemy. simpl.
  unfold at_index in Henemy |- *.
  destruct (Args.enemyIndex args <? 0); [discriminate |].
  apply list_lookup_insert_eq. eapply lookup_lt_Some, Henemy.
Qed.

(** Repeating the command with a rate of -100 takes 1 off each time. *)
Lemma ACCUMULATE_repeated (args : Args.t) (w : World) (actor : Battler) (n : nat) :
  isStateAccumulate (Args.stateId args) = true ->
  Args.rate args = -100 ->
  gameActors w !! Args.actorId args = Some actor ->
  exists actor',
    gameActors (Nat.iter n (ACCUMULATE args) w) !! Args.actorId args = Some actor' /\
    (storedAccumulation actor' (Args.stateId args)
     == storedAccumulation actor (Args.stateId args) - inject_Z (Z.of_nat n))%Q.
Proof.
  intros Hkind Hrate Hactor. induction n as [| n (actor' & Hlookup & Hstored)].
  - exists actor. split; [exact Hactor |].
    change (inject_Z (Z.of_nat 0)) with 0%Q. lra.
  - eexists. split.
    + simpl. apply ACCUMULATE_actor. exact Hlookup.
    + unfold storedAccumulation at 1.
      rewrite accumulateState_entry by assumption. simpl.
      rewrite Hstored, Hrate, Nat2Z.inj_succ. unfold Z.succ.
      rewrite inject_Z_plus.
      change (inject_Z (-100)) with (-100)%Q. change (inject_Z 1) with 1%Q.
      assert (-100 / 100 == -1)%Q as -> by reflexivity. lra.
Qed.

(** C10: for an accumulative state, [accumulateState] stores the previous
    accumulation plus the value, whatever its sign: when that sum is below 0
    the stored accumulation is below 0.  The ACCUMULATE command applies
    [rate / 100] to the actor and to the enemy it names, which is negative
    for a negative rate; and repeating the command with a rate of -100
    brings the stored accumulation below any bound. *)
Theorem accumulation_has_no_floor (stateId : Z) :
  isStateAccumulate stateId = true ->
  (forall value this,
     accumulationEntry (accumulateState stateId value this).2 stateId
     = Some (storedAccumulation this stateId + value)%Q) /\
  (forall value this,
     (value < 0)%Q ->
     (storedAccumulation this stateId + value < 0)%Q ->
     (storedAccumulation (accumulateState stateId value this).2 stateId < 0)%Q) /\
  (forall args w actor,
     Args.stateId args = stateId ->
     -100 <= Args.rate args <= 100 ->
     gameActors w !! Args.actorId args = Some actor ->
     gameActors (ACCUMULATE args w) !! Args.actorId args
     = Some (accumulateState stateId (inject_Z (Args.rate args) / 100)%Q actor).2 /\
     (Args.rate args < 0 -> (inject_Z (Args.rate args) / 100 < 0)%Q)) /\
  (forall args w enemy,
     Args.stateId args = stateId ->
     -100 <= Args.rate args <= 100 ->
     at_index (gameTroop w) (Args.enemyIndex args) = Some enemy ->
     at_index (gameTroop (ACCUMULATE args w)) (Args.enemyIndex args)
     = Some (accumulateState stateId (inject_Z (Args.rate args) / 100)%Q enemy).2) /\
  (forall args w actor (bound : Q),
     Args.stateId args = stateId ->
     Args.rate args = -100 ->
     gameActors w !! Args.actorId args = Some actor ->
     exists n actor',
       gameActors (Nat.iter n (ACCUMULATE args) w) !! Args.actorId args = Some actor' /\
       (storedAccumulation actor' stateId < bound)%Q).
Proof.
  intros Hkind. split_and!.
  - intros value this. now apply accumulateState_entry.
  - intros value this _ Hbelow. unfold storedAccumulation at 1.
    now rewrite accumulateState_entry.
  - intros args w actor <- Hrange Hactor. split.
    + now apply ACCUMULATE_actor.
    + intros Hneg. unfold Qdiv, Qlt, inject_Z. simpl. lia.
  - intros args w enemy <- Hrange Henemy. now apply ACCUMULATE_enemy.
  - intros args w actor bound <- Hrate Hactor.
    destruct (Qarchimedean (storedAccumulation actor (Args.stateId args) - bound))
      as [p Hp].
    destruct (ACCUMULATE_repeated args w actor (Pos.to_nat p) Hkind Hrate Hactor)
      as (actor' & Hlookup & Hstored).
    exists (Pos.to_nat p), actor'. split; [exact Hlookup |].
    rewrite Hstored, positive_nat_Z. unfold inject_Z. lra.
Qed.


(** ** The rate computed by an action *)

Lemma clamp_range (x : Q) : (0 <= clamp x 0 1 <= 1)%Q.
Proof.
  unfold clamp. split.
  - apply Q.min_glb; [apply Q.le_max_r | lra].
  - apply Q.le_min_r.
Qed.

Lemma clamp_nonpos (x : Q) : (x <= 0)%Q -> (clamp x 0 1 == 0)%Q.
Proof.
  intros Hx. unfold clamp.
  rewrite Q.max_r by exact Hx. apply Q.min_l. lra.
Qed.

(** Without the table the read raises. *)
Lemma getStateImmunity_without_table (this : Battler) (stateId : Z) :
  _stateImmunity this = None -> getStateImmunity this stateId = None.
Proof. intros Hnone. unfold getStateImmunity. now rewrite Hnone. Qed.

Lemma getStateImmunity_present (this : Battler) (stateId : Z) :
  is_Some (_stateImmunity this) ->
  getStateImmunity this stateId =
    Some match immunityEntry this stateId with
         | Some n => (inject_Z n * ImmunityRate param / 100)%Q
         | None => 0%Q
         end.
Proof.
  intros [m Hm]. unfold getStateImmunity, immunityEntry. rewrite Hm. simpl.
  now destruct (m !! stateId).
Qed.

(** [applyResistanceForAccumulateState] once the immunity is known. *)
Lemma applyResistance_unfold
  (this : Game_Action) (effectValue : Q) (target : Battler) (stateId : Z)
  (immunity : Q) :
  getStateImmunity target stateId = Some immunity ->
  applyResistanceForAccumulateState this effectValue target stateId =
    ((applyFormula effectValue target stateId).1,
     Some (clamp
             (applyLuck this target (applyFormula effectValue target stateId).2
              * (1 - immunity)) 0 1)).
Proof.
  intros Himm. unfold applyResistanceForAccumulateState.
  destruct (applyFormula effectValue target stateId) as [log v].
  now rewrite Himm.
Qed.

(** C2 (as amended): whatever the numbers and the parameters, the rate
    returned by [applyResistanceForAccumulateState] is a clamped value and
    lies in [0, 1].  That is the rate [itemEffectAddNormalState] hands to
    [accumulateState] unless the action is a certain hit and the CertainHit
    parameter is on; in that case it hands over [effect.value1] as it is. *)
Theorem applied_rate_is_clamped
  (this : Game_Action) (target : Battler) (effect : Effect) :
  is_Some (_stateImmunity target) ->
  (forall effectValue stateId,
   exists raw,
     (applyResistanceForAccumulateState this effectValue target stateId).2
     = Some (clamp raw 0 1) /\
     (0 <= clamp raw 0 1 <= 1)%Q) /\
  (isCertainHit this && CertainHit param = false ->
   exists raw,
     (normalStateAccumulation this target effect).2 = Some (clamp raw 0 1) /\
     (0 <= clamp raw 0 1 <= 1)%Q) /\
  (isCertainHit this && CertainHit param = true ->
   normalStateAccumulation this target effect = ([], Some (value1 effect))).
Proof.
  intros Hpresent.
  assert (forall effectValue stateId,
          exists raw,
            (applyResistanceForAccumulateState this effectValue target stateId).2
            = Some (clamp raw 0 1) /\
            (0 <= clamp raw 0 1 <= 1)%Q) as Hclamped.
  { intros effectValue stateId. eexists.
    rewrite (applyResistance_unfold _ _ _ _ _
               (getStateImmunity_present target stateId Hpresent)). simpl.
    split; [reflexivity | apply clamp_range]. }
  split_and!.
  - exact Hclamped.
  - intros Hpath. unfold normalStateAccumulation.
    replace (negb (isCertainHit this) || negb (CertainHit param)) with true
      by (destruct (isCertainHit this), (CertainHit param); simpl in Hpath |- *;
          congruence).
    apply Hclamped.
  - intros [Hcertain Hparam]%andb_true_iff. unfold normalStateAccumulation.
    now rewrite Hcertain, Hparam.
Qed.

(** C3 (as amended): for a certain hit with the CertainHit parameter on,
    the rate handed to [accumulateState] is [effect.value1] itself: the
    state rate, the formula, the luck factor, the immunity and the clamp
    are all skipped, and nothing is logged. *)
Theorem certain_hit_rate_is_direct
  (this : Game_Action) (target : Battler) (effect : Effect) :
  isCertainHit this = true ->
  CertainHit param = true ->
  normalStateAccumulation this target effect = ([], Some (value1 effect)) /\
  (isStateAccumulate (dataId effect) = true ->
   itemEffectAddNormalState this target effect =
     ([],
      Some (if (accumulateState (dataId effect) (value1 effect) target).1
            then makeSuccess this
                   (accumulateState (dataId effect) (value1 effect) target).2
            else (accumulateState (dataId effect) (value1 effect) target).2))).
Proof.
  intros Hcertain Hparam.
  assert (normalStateAccumulation this target effect = ([], Some (value1 effect)))
    as Hrate.
  { unfold normalStateAccumulation. now rewrite Hcertain, Hparam. }
  split; [exact Hrate |].
  intros Hkind. unfold itemEffectAddNormalState. rewrite Hkind, Hrate. simpl.
  now destruct (accumulateState (dataId effect) (value1 effect) target).
Qed.

(** C4 (as amended): when the formula raises, the computation returns
    all the same; it sounds the buzzer and writes two warnings to the
    console, and goes on from the infliction value it was given, without
    the state rate: the luck factor, the immunity and the clamp apply to
    that value. *)
Theorem failed_formula_keeps_infliction
  (this : Game_Action) (effectValue : Q) (target : Battler) (stateId : Z)
  (stack : string) (immunity : Q) :
  truthy (AccumulateFormula param) = true ->
  eval (AccumulateFormula param) effectValue (stateRate (core target) stateId)
    = Raises stack ->
  getStateImmunity target stateId = Some immunity ->
  applyResistanceForAccumulateState this effectValue target stateId =
    ([PlayBuzzer;
      ConsoleWarn (String.append "Script Error : " (AccumulateFormula param));
      ConsoleWarn stack],
     Some (clamp (applyLuck this target effectValue * (1 - immunity)) 0 1)).
Proof.
  intros Hformula Hraises Himm.
  rewrite (applyResistance_unfold _ _ _ _ _ Himm).
  unfold applyFormula. now rewrite Hformula, Hraises.
Qed.

(** C9 (as amended): [getStateImmunity] is the immunity count times the
    ImmunityRate parameter over 100, and 0 when the state has no entry or
    the parameter is 0.  With a parameter of 100 and a count of at least 1,
    the rate returned by [applyResistanceForAccumulateState] is 0 whenever
    the value reaching the immunity factor is not negative, and always when
    the count is exactly 1.  In [itemEffectAddNormalState] a certain hit
    with the CertainHit parameter on does not reach that computation: the
    rate it hands to [accumulateState] is [effect.value1] itself, whatever
    the immunity count and the ImmunityRate. *)
Theorem immunity_grows_with_count
  (this : Game_Action) (effectValue : Q) (target : Battler) (stateId : Z) :
  is_Some (_stateImmunity target) ->
  getStateImmunity target stateId =
    Some match immunityEntry target stateId with
         | Some n => (inject_Z n * ImmunityRate param / 100)%Q
         | None => 0%Q
         end /\
  ((ImmunityRate param == 0)%Q ->
   exists immunity,
     getStateImmunity target stateId = Some immunity /\ (immunity == 0)%Q) /\
  ((ImmunityRate param == 100)%Q ->
   1 <= immunityCount target stateId ->
   (0 <= applyLuck this target (applyFormula effectValue target stateId).2)%Q \/
   immunityCount target stateId = 1 ->
   exists rate,
     (applyResistanceForAccumulateState this effectValue target stateId).2
     = Some rate /\
     (rate == 0)%Q) /\
  (isCertainHit this = true ->
   CertainHit param = true ->
   forall effect,
     dataId effect = stateId ->
     normalStateAccumulation this target effect = ([], Some (value1 effect))).
Proof.
  intros Hpresent.
  pose proof (getStateImmunity_present target stateId Hpresent) as Himm.
  split_and!; [exact Himm | | |];
    [| | intros Hcertain Hparam effect _; unfold normalStateAccumulation;
         now rewrite Hcertain, Hparam].
  - intros Hrate. eexists. split; [exact Himm |].
    destruct (immunityEntry target stateId) as [n |]; [| reflexivity].
    rewrite Hrate. unfold Qdiv. rewrite Qmult_0_r. apply Qmult_0_l.
  - intros Hrate Hcount Hsign.
    rewrite (applyResistance_unfold _ _ _ _ _ Himm). simpl.
    eexists. split; [reflexivity |].
    set (v := applyLuck this target (applyFormula effectValue target stateId).2)
      in Hsign |- *.
    unfold immunityCount in Hcount, Hsign.
    destruct (immunityEntry target stateId) as [n |]; simpl in Hcount, Hsign;
      [| lia].
    apply clamp_nonpos. rewrite Hrate.
    assert (inject_Z n * 100 / 100 == inject_Z n)%Q as -> by field.
    destruct Hsign as [Hpos | ->].
    + assert (1 <= inject_Z n)%Q
        by (change 1%Q with (inject_Z 1); now rewrite <- Zle_Qle).
      nra.
    + change (inject_Z 1) with 1%Q. lra.
Qed.


(** ** Attack states *)

Lemma elem_of_attackStates (this : Core) (accumulateFlg : option bool)
  (stateId : Z) :
  stateId ∈ attackStates this accumulateFlg <->
  stateId ∈ _Game_BattlerBase_attackStates this /\
  isStateAccumulate stateId = default false accumulateFlg.
Proof.
  unfold attackStates. rewrite !list_elem_of_In, filter_In.
  rewrite Bool.eqb_true_iff. now destruct accumulateFlg.
Qed.

(** Splitting a list by a test and its negation loses and adds nothing. *)
Lemma filter_split_Permutation {A} (f : A -> bool) (l : list A) :
  List.filter (fun x => Bool.eqb (f x) false) l ++
  List.filter (fun x => Bool.eqb (f x) true) l ≡ₚ l.
Proof.
  induction l as [| x l IH]; [reflexivity |]. simpl.
  destruct (f x); simpl.
  - rewrite <- Permutation_middle. now constructor.
  - now constructor.
Qed.

(** X1: [attackStates()] and [attackStates(true)] split the host's attack
    states between them: the first keeps the states that are not
    accumulative, the second the accumulative ones, each in the host's
    order, and together they are a rearrangement of the host's list.
    Called without argument the method answers as for [false]. *)
Theorem attackStates_split (this : Core) :
  attackStates this None = attackStates this (Some false) /\
  attackStates this None ++ attackStates this (Some true)
    ≡ₚ _Game_BattlerBase_attackStates this /\
  (forall stateId,
     stateId ∈ attackStates this (Some true) ->
     isStateAccumulate stateId = true) /\
  (forall stateId,
     stateId ∈ attackStates this None -> isStateAccumulate stateId = false) /\
  sublist (attackStates this None) (_Game_BattlerBase_attackStates this) /\
  sublist (attackStates this (Some true)) (_Game_BattlerBase_attackStates this).
Proof.
  split_and!.
  - reflexivity.
  - apply filter_split_Permutation.
  - now intros stateId [_ Hkind]%elem_of_attackStates.
  - now intros stateId [_ Hkind]%elem_of_attackStates.
  - unfold attackStates. induction (_Game_BattlerBase_attackStates this) as [| s l IH];
      simpl; [constructor |].
    destruct (Bool.eqb (isStateAccumulate s) false); now constructor.
  - unfold attackStates. induction (_Game_BattlerBase_attackStates this) as [| s l IH];
      simpl; [constructor |].
    destruct (Bool.eqb (isStateAccumulate s) true); now constructor.
Qed.

(** ** What raises, and what is logged *)

Lemma getStateImmunity_None (this : Battler) (stateId : Z) :
  getStateImmunity this stateId = None <-> _stateImmunity this = None.
Proof.
  unfold getStateImmunity. destruct (_stateImmunity this); simpl; split;
    congruence.
Qed.

Lemma applyResistance_result_None
  (this : Game_Action) (effectValue : Q) (target : Battler) (stateId : Z) :
  (applyResistanceForAccumulateState this effectValue target stateId).2 = None
  <-> _stateImmunity target = None.
Proof.
  unfold applyResistanceForAccumulateState.
  destruct (applyFormula effectValue target stateId) as [log v]. simpl.
  rewrite <- (getStateImmunity_None target stateId).
  destruct (getStateImmunity target stateId); simpl; split; congruence.
Qed.

(** X2: [applyResistanceForAccumulateState] raises exactly when the target
    has no immunity table, whatever the formula does; and it logs something
    exactly when a formula is set and its evaluation raises (then the
    buzzer and the two warnings, also when the call goes on to raise). *)
Theorem applyResistance_raises_and_logs
  (this : Game_Action) (effectValue : Q) (target : Battler) (stateId : Z) :
  ((applyResistanceForAccumulateState this effectValue target stateId).2 = None
   <-> _stateImmunity target = None) /\
  ((applyResistanceForAccumulateState this effectValue target stateId).1 <> []
   <-> truthy (AccumulateFormula param) = true /\
       exists stack,
         eval (AccumulateFormula param) effectValue
           (stateRate (core target) stateId) = Raises stack) /\
  (forall stack,
     truthy (AccumulateFormula param) = true ->
     eval (AccumulateFormula param) effectValue
       (stateRate (core target) stateId) = Raises stack ->
     (applyResistanceForAccumulateState this effectValue target stateId).1
     = [PlayBuzzer;
        ConsoleWarn (String.append "Script Error : " (AccumulateFormula param));
        ConsoleWarn stack]).
Proof.
  split_and!.
  - apply applyResistance_result_None.
  - unfold applyResistanceForAccumulateState, applyFormula.
    destruct (truthy (AccumulateFormula param)); simpl.
    + destruct (eval _ _ _) as [v | stack]; simpl.
      * split; [congruence | intros (_ & stack & Hstack); discriminate].
      * split; [eauto | discriminate].
    + split; [congruence | intros [Hcontra _]; discriminate].
  - intros stack Hformula Hraises.
    unfold applyResistanceForAccumulateState, applyFormula.
    now rewrite Hformula, Hraises.
Qed.

(** X3: [itemEffectAddNormalState] raises exactly when the state is
    accumulative, the resistance is applied (the action is no certain hit,
    or the CertainHit parameter is off) and the target has no immunity
    table.  A certain hit under the parameter never raises: [accumulateState]
    creates the tables it needs. *)
Theorem itemEffectAddNormalState_raises
  (this : Game_Action) (target : Battler) (effect : Effect) :
  (itemEffectAddNormalState this target effect).2 = None <->
  isStateAccumulate (dataId effect) = true /\
  isCertainHit this && CertainHit param = false /\
  _stateImmunity target = None.
Proof.
  unfold itemEffectAddNormalState, normalStateAccumulation.
  destruct (isStateAccumulate (dataId effect)); simpl;
    [| split; [discriminate | now intros [? _]]].
  destruct (isCertainHit this), (CertainHit param); simpl.
  - destruct (accumulateState _ _ _). simpl.
    split; [discriminate | now intros (_ & ? & _)].
  - pose proof (applyResistance_result_None this (value1 effect) target
                  (dataId effect)) as Hnone.
    destruct (applyResistanceForAccumulateState _ _ _ _) as [log [rate |]];
      simpl in Hnone |- *.
    + destruct (accumulateState _ _ _). simpl.
      split; [discriminate |]. intros (_ & _ & Htable).
      apply Hnone in Htable. discriminate.
    + split; [| reflexivity]. intros _. split_and!; try reflexivity.
      now apply Hnone.
  - pose proof (applyResistance_result_None this (value1 effect) target
                  (dataId effect)) as Hnone.
    destruct (applyResistanceForAccumulateState _ _ _ _) as [log [rate |]];
      simpl in Hnone |- *.
    + destruct (accumulateState _ _ _). simpl.
      split; [discriminate |]. intros (_ & _ & Htable).
      apply Hnone in Htable. discriminate.
    + split; [| reflexivity]. intros _. split_and!; try reflexivity.
      now apply Hnone.
  - pose proof (applyResistance_result_None this (value1 effect) target
                  (dataId effect)) as Hnone.
    destruct (applyResistanceForAccumulateState _ _ _ _) as [log [rate |]];
      simpl in Hnone |- *.
    + destruct (accumulateState _ _ _). simpl.
      split; [discriminate |]. intros (_ & _ & Htable).
      apply Hnone in Htable. discriminate.
    + split; [| reflexivity]. intros _. split_and!; try reflexivity.
      now apply Hnone.
Qed.

(** ** More on accumulateState *)

(** X4: for an accumulative state a second call of [accumulateState] adds
    to what the first call stored, whether or not the first call activated
    the state: the entry is then the stored accumulation plus the first
    value, plus the second value, the sums taken in that order.  The second
    call returns [true] exactly when the state is not active after the
    first call and that total is at least 1. *)
Theorem accumulateState_twice (stateId : Z) (d1 d2 : Q) (this : Battler) :
  isStateAccumulate stateId = true ->
  let first := accumulateState stateId d1 this in
  let second := accumulateState stateId d2 first.2 in
  accumulationEntry first.2 stateId
  = Some (storedAccumulation this stateId + d1)%Q /\
  accumulationEntry second.2 stateId
  = Some (storedAccumulation this stateId + d1 + d2)%Q /\
  (second.1 = true <->
   isStateAffected (core first.2) stateId = false /\
   (1 <= storedAccumulation this stateId + d1 + d2)%Q).
Proof.
  intros Hkind first second.
  assert (accumulationEntry first.2 stateId
          = Some (storedAccumulation this stateId + d1)%Q) as Hfirst
    by (now apply accumulateState_entry).
  assert (storedAccumulation first.2 stateId
          = (storedAccumulation this stateId + d1)%Q) as Hstored
    by (unfold storedAccumulation at 1; now rewrite Hfirst).
  split_and!.
  - exact Hfirst.
  - unfold second. rewrite accumulateState_entry by assumption.
    now rewrite Hstored.
  - unfold second. rewrite accumulateState_unfold, Hkind, Hstored.
    destruct (isStateAffected (core first.2) stateId); simpl.
    + split; [discriminate | now intros [? _]].
    + destruct (Qle_bool 1 (storedAccumulation this stateId + d1 + d2))
        eqn:Hle; simpl.
      * apply Qle_bool_iff in Hle. tauto.
      * split; [discriminate |]. intros [_ Hle'].
        apply Qle_bool_iff in Hle'. congruence.
Qed.

(** X5: [accumulateState] writes the entries of its own state only.  When
    it returns [false] every other accumulation entry and the whole
    immunity table are as [clearStateAccumulationsIfNeed] leaves them; when
    it returns [true] every other entry of both tables is as the host's
    [addState] leaves it. *)
Theorem accumulateState_writes_own_entries
  (stateId : Z) (value : Q) (this : Battler) :
  let this' := (accumulateState stateId value this).2 in
  let this1 :=
    setAccumulation stateId (storedAccumulation this stateId + value)%Q
      (clearStateAccumulationsIfNeed this) in
  ((accumulateState stateId value this).1 = false ->
   _stateImmunity this' = _stateImmunity (clearStateAccumulationsIfNeed this) /\
   forall k, k <> stateId ->
     accumulationEntry this' k = accumulationEntry this k) /\
  ((accumulateState stateId value this).1 = true ->
   forall k, k <> stateId ->
     accumulationEntry this' k = accumulationEntry (addState stateId this1) k /\
     immunityEntry this' k = immunityEntry (addState stateId this1) k).
Proof.
  intros this' this1. subst this'. rewrite accumulateState_unfold. fold this1.
  assert (forall k, k <> stateId ->
          accumulationEntry this1 k = accumulationEntry this k) as Hother.
  { intros k Hk. unfold this1.
    rewrite accumulationEntry_set by apply clear_tables_present.
    rewrite decide_False by congruence. apply accumulationEntry_clear. }
  destruct (isStateAccumulate stateId); simpl.
  - destruct (negb (isStateAffected (core this) stateId) && Qle_bool 1 _);
      simpl; split; try discriminate; intros _.
    + intros k Hk. split; [reflexivity |].
      unfold immunityEntry, setImmunity; simpl.
      destruct (_stateImmunity (addState stateId this1)); simpl; [| reflexivity].
      apply lookup_insert_ne. congruence.
    + split; [reflexivity | exact Hother].
  - split; [| discriminate]. intros _. split; [reflexivity |].
    intros k _. apply accumulationEntry_clear.
Qed.

(** X6: [clearStates] keeps the accumulations but not the states, so a
    state whose accumulation stands at 1 or more is activated again by the
    next [accumulateState] for it, whatever the value that does not bring
    the total below 1 (a rate of 0 will do), and its immunity count goes
    up once more. *)
Theorem accumulateState_after_clearStates
  (stateId : Z) (value : Q) (this : Battler) :
  (forall b s, isStateAffected (core (_Game_BattlerBase_clearStates b)) s = false) ->
  isStateAccumulate stateId = true ->
  (1 <= storedAccumulation this stateId + value)%Q ->
  (accumulateState stateId value (clearStates this)).1 = true /\
  immunityCount (accumulateState stateId value (clearStates this)).2 stateId
  = immunityCount this stateId + 1.
Proof.
  intros Hcleared Hkind Htotal.
  destruct (clearStates_keepsTables this) as [Hacc Himm].
  assert (storedAccumulation (clearStates this) stateId
          = storedAccumulation this stateId) as Hstored.
  { unfold clearStates. rewrite storedAccumulation_clear.
    unfold storedAccumulation, accumulationEntry. now rewrite Hacc. }
  assert (immunityCount (clearStates this) stateId
          = immunityCount this stateId) as Hcount.
  { unfold clearStates. rewrite immunityCount_clear.
    unfold immunityCount, immunityEntry. now rewrite Himm. }
  rewrite accumulateState_unfold, Hkind, Hstored.
  change (core (clearStates this))
    with (core (_Game_BattlerBase_clearStates this)).
  rewrite Hcleared. apply Qle_bool_iff in Htotal. rewrite Htotal. simpl.
  split; [reflexivity |].
  rewrite activation_immunity by apply clear_tables_present.
  rewrite decide_True by reflexivity.
  unfold immunityCount at 1.
  rewrite immunityEntry_setAccumulation, immunityEntry_clear.
  fold (immunityCount (clearStates this) stateId). now rewrite Hcount.
Qed.

(** X7: an operation changes the immunity count of a state only when it is
    an [accumulateState] for that state that returns [true], and then by
    exactly 1. *)
Theorem immunity_counts_activations
  (op : Operation) (this this' : Battler) (k : Z) :
  perform op this = Some this' ->
  immunityCount this' k =
    immunityCount this k +
    match op with
    | OpAccumulateState stateId value =>
        if (accumulateState stateId value this).1 && bool_decide (stateId = k)
        then 1 else 0
    | _ => 0
    end.
Proof.
  destruct op as [| s | s | s | s v | |]; simpl.
  - intros [= <-]. unfold clearStates. rewrite immunityCount_clear.
    unfold immunityCount, immunityEntry.
    rewrite (proj2 (clearStates_keepsTables this)). lia.
  - intros [= <-]. unfold eraseState.
    rewrite wrapped_removal_immunity by apply eraseState_keepsImmunity. lia.
  - intros [= <-]. unfold removeState.
    rewrite wrapped_removal_immunity by apply removeState_keepsImmunity. lia.
  - intros [= <-]. rewrite keepsImmunity_count by apply addState_keepsImmunity.
    lia.
  - intros [= <-]. rewrite accumulateState_unfold.
    set (this1 := setAccumulation s (storedAccumulation this s + v)%Q
                    (clearStateAccumulationsIfNeed this)).
    assert (immunityCount this1 k = immunityCount this k) as Hsame.
    { unfold this1, immunityCount.
      now rewrite immunityEntry_setAccumulation, immunityEntry_clear. }
    destruct (isStateAccumulate s); simpl;
      [| rewrite immunityCount_clear; lia].
    destruct (negb (isStateAffected (core this) s) && Qle_bool 1 _); simpl;
      [| rewrite Hsame; lia].
    rewrite activation_immunity, Hsame
      by (unfold this1; apply clear_tables_present).
    destruct (decide (s = k)) as [Hk | Hk].
    + now rewrite bool_decide_eq_true_2.
    + now rewrite bool_decide_eq_false_2.
  - intros Hdone. rewrite (removeBattleStates_immunity _ _ _ Hdone). lia.
  - intros [= <-]. rewrite immunityCount_clear. lia.
Qed.

(** ** More on the tables *)

(** X8: a battler without tables, or with empty ones, has all its keys in
    the database; and from a battler that has, over a host that writes no
    key of its own, no sequence of operations raises and the keys stay in
    the database, so that the loop of [removeBattleStates] always finds the
    state of a key. *)
Theorem operations_never_raise (ops : list Operation) :
  hostAddsNoKey ->
  (forall host, keysInDatabase (mkBattler host None None)) /\
  (forall host immunity, keysInDatabase (mkBattler host (Some ∅) immunity)) /\
  forall this,
    keysInDatabase this ->
    exists this', performAll ops this = Some this' /\ keysInDatabase this'.
Proof.
  intros Hhost. split_and!.
  - intros host k [v Hv]. discriminate.
  - intros host immunity k [v Hv]. unfold accumulationEntry in Hv.
    simpl in Hv. rewrite lookup_empty in Hv. discriminate.
  - now apply performAll_keysInDatabase.
Qed.

Lemma resetAtBattleEnd_raised (l : list Z) :
  foldl resetAtBattleEnd None l = None.
Proof. induction l as [| k l IH]; [reflexivity | exact IH]. Qed.

Lemma resetAtBattleEnd_unknown (l : list Z) (k : Z) :
  k ∈ l ->
  dataStates k = None ->
  forall table, foldl resetAtBattleEnd table l = None.
Proof.
  intros Hin Hunknown. induction l as [| j l IH]; intros table.
  - now apply not_elem_of_nil in Hin.
  - apply elem_of_cons in Hin as [<- | Hin]; simpl.
    + assert (resetAtBattleEnd table k = None) as ->
        by (unfold resetAtBattleEnd; destruct table; simpl;
            [now rewrite Hunknown | reflexivity]).
      apply resetAtBattleEnd_raised.
    + now apply IH.
Qed.

(** X9: with the reset parameter on, [removeBattleStates] raises as soon
    as the accumulation table (as the host's [removeBattleStates] leaves
    it) has a key that is no state of the database; with the parameter off
    it never raises. *)
Theorem removeBattleStates_raises_on_unknown_state
  (this : Battler) (k : Z) :
  is_Some (accumulationEntry (_Game_Battler_removeBattleStates this) k) ->
  dataStates k = None ->
  removeBattleStates this =
    if ResetAccumulateEndBattle param then None
    else Some (_Game_Battler_removeBattleStates this).
Proof.
  intros Hkey Hunknown. unfold removeBattleStates.
  destruct (ResetAccumulateEndBattle param); [| reflexivity].
  unfold accumulationEntry in Hkey.
  destruct (_stateAccumulations (_Game_Battler_removeBattleStates this))
    as [m |]; simpl in Hkey; [| now destruct Hkey].
  rewrite (resetAtBattleEnd_unknown (keys m) k); [reflexivity | | assumption].
  now apply elem_of_keys.
Qed.

Lemma resetValue_settled (k : Z) (v : Q) :
  resetValue k (resetValue k v) = resetValue k v.
Proof.
  unfold resetValue. destruct (flaggedAtBattleEnd k); simpl; [| reflexivity].
  destruct (Qle_bool v 0) eqn:Hle; simpl; [now rewrite Hle | reflexivity].
Qed.

(** The table the battle-end loop leaves. *)
Lemma removeBattleStates_table (this this' : Battler) :
  keysInDatabase (_Game_Battler_removeBattleStates this) ->
  ResetAccumulateEndBattle param = true ->
  removeBattleStates this = Some this' ->
  core this' = core (_Game_Battler_removeBattleStates this) /\
  _stateImmunity this' = _stateImmunity (_Game_Battler_removeBattleStates this) /\
  (is_Some (_stateAccumulations this') <->
   is_Some (_stateAccumulations (_Game_Battler_removeBattleStates this))) /\
  forall k,
    accumulationEntry this' k
    = resetValue k <$> accumulationEntry (_Game_Battler_removeBattleStates this) k.
Proof.
  unfold removeBattleStates, keysInDatabase.
  set (base := _Game_Battler_removeBattleStates this). intros Hdefined ->.
  unfold accumulationEntry in Hdefined |- *.
  destruct (_stateAccumulations base) as [m |] eqn:Htable; simpl in Hdefined |- *.
  - destruct (resetAtBattleEnd_loop (keys m) m) as (m' & -> & Hm').
    { apply NoDup_fst_map_to_list. }
    { intros j Hj. apply Hdefined. now apply elem_of_keys. }
    simpl. intros [= <-]. simpl. split_and!; try reflexivity.
    + split; eauto.
    + intros k. rewrite Hm'. case_decide as Hk; [reflexivity |].
      rewrite elem_of_keys in Hk.
      destruct (m !! k) eqn:Hmk; [exfalso; eauto | reflexivity].
  - intros [= <-]. rewrite Htable. split_and!; try reflexivity.
Qed.

(** X10: after the reset at battle end no state flagged "remove at battle
    end" has an accumulation above 0 (one below 0 stays below 0), and a
    second reset, the host having nothing more to remove, changes
    nothing. *)
Theorem removeBattleStates_settles (this this' : Battler) :
  keysInDatabase (_Game_Battler_removeBattleStates this) ->
  ResetAccumulateEndBattle param = true ->
  removeBattleStates this = Some this' ->
  (forall k,
     flaggedAtBattleEnd k = true -> (storedAccumulation this' k <= 0)%Q) /\
  (forall k v,
     accumulationEntry (_Game_Battler_removeBattleStates this) k = Some v ->
     (v <= 0)%Q -> accumulationEntry this' k = Some v) /\
  (_Game_Battler_removeBattleStates this' = this' ->
   removeBattleStates this' = Some this').
Proof.
  intros Hkeys Hflag Hdone.
  destruct (removeBattleStates_table this this' Hkeys Hflag Hdone)
    as (Hcore & Himm & Hpresent & Hentries).
  split_and!.
  - intros k Hk. unfold storedAccumulation. rewrite Hentries.
    destruct (accumulationEntry (_Game_Battler_removeBattleStates this) k)
      as [v |]; simpl; [| lra].
    unfold resetValue. rewrite Hk. simpl.
    destruct (Qle_bool v 0) eqn:Hle; simpl; [| lra].
    now apply Qle_bool_iff.
  - intros k v Hv Hle. rewrite Hentries, Hv. simpl. unfold resetValue.
    apply Qle_bool_iff in Hle. rewrite Hle. now rewrite andb_false_r.
  - intros Hfixed.
    assert (keysInDatabase (_Game_Battler_removeBattleStates this')) as Hkeys'.
    { rewrite Hfixed. intros k. rewrite Hentries. intros Hk%fmap_is_Some.
      now apply Hkeys. }
    destruct (removeBattleStates_returns this' Hkeys') as [this'' Hagain].
    destruct (removeBattleStates_table this' this'' Hkeys' Hflag Hagain)
      as (Hcore' & Himm' & Hpresent' & Hentries').
    rewrite Hagain. f_equal. rewrite Hfixed in Hcore', Himm', Hpresent', Hentries'.
    destruct this' as [c' acc' imm'], this'' as [c'' acc'' imm''].
    simpl in Hcore', Himm'. subst c'' imm''. f_equal.
    assert (forall k, accumulationEntry (mkBattler c' acc'' imm') k
                      = accumulationEntry (mkBattler c' acc' imm') k) as Hsame.
    { intros k. rewrite Hentries', Hentries.
      destruct (accumulationEntry (_Game_Battler_removeBattleStates this) k);
        simpl; [| reflexivity].
      now rewrite resetValue_settled. }
    unfold accumulationEntry in Hsame. simpl in Hsame, Hpresent'.
    destruct acc'' as [m'' |], acc' as [m' |].
    + f_equal. apply map_eq. exact Hsame.
    + destruct Hpresent' as [Hcontra _]. destruct Hcontra; [eauto | discriminate].
    + destruct Hpresent' as [_ Hcontra]. destruct Hcontra; [eauto | discriminate].
    + reflexivity.
Qed.

(** ** More on the ACCUMULATE command *)

(** X11: the ACCUMULATE command touches the actor and the enemy it names
    and nothing else.  When there is no such actor and no such enemy (an
    index below 0 or past the end of the troop) the world is unchanged;
    otherwise every other actor and every other enemy is as before, no
    actor is added or lost, and the troop keeps its size. *)
Theorem ACCUMULATE_touches_named_battlers (args : Args.t) (w : World) :
  (gameActors w !! Args.actorId args = None ->
   at_index (gameTroop w) (Args.enemyIndex args) = None ->
   ACCUMULATE args w = w) /\
  (forall id,
     id <> Args.actorId args ->
     gameActors (ACCUMULATE args w) !! id = gameActors w !! id) /\
  (forall id,
     is_Some (gameActors (ACCUMULATE args w) !! id)
     <-> is_Some (gameActors w !! id)) /\
  (forall i,
     Z.of_nat i <> Args.enemyIndex args ->
     gameTroop (ACCUMULATE args w) !! i = gameTroop w !! i) /\
  length (gameTroop (ACCUMULATE args w)) = length (gameTroop w).
Proof.
  unfold ACCUMULATE.
  set (w1 := match gameActors w !! Args.actorId args with
             | Some actor => _
             | None => w
             end).
  assert (gameTroop w1 = gameTroop w) as Htroop
    by (unfold w1; now destruct (gameActors w !! Args.actorId args)).
  assert (forall id, id <> Args.actorId args ->
          gameActors w1 !! id = gameActors w !! id) as Hothers.
  { intros id Hid. unfold w1.
    destruct (gameActors w !! Args.actorId args); [| reflexivity].
    simpl. now rewrite lookup_insert_ne. }
  assert (forall id, is_Some (gameActors w1 !! id)
                     <-> is_Some (gameActors w !! id)) as Hdom.
  { intros id. destruct (decide (id = Args.actorId args)) as [-> | Hid];
      [| now rewrite Hothers].
    unfold w1. destruct (gameActors w !! Args.actorId args) eqn:Hactor.
    - simpl. rewrite lookup_insert_eq. split; eauto.
    - now rewrite Hactor. }
  split_and!.
  - intros Hactor Henemy.
    assert (w1 = w) as -> by (unfold w1; now rewrite Hactor).
    now rewrite Henemy.
  - intros id Hid. rewrite <- (Hothers id Hid).
    now destruct (at_index (gameTroop w1) (Args.enemyIndex args)).
  - intros id. rewrite <- (Hdom id).
    now destruct (at_index (gameTroop w1) (Args.enemyIndex args)).
  - intros i Hi. rewrite <- Htroop.
    destruct (at_index (gameTroop w1) (Args.enemyIndex args)) eqn:Henemy;
      [| reflexivity].
    simpl. apply list_lookup_insert_ne.
    unfold at_index in Henemy.
    destruct (Args.enemyIndex args <? 0) eqn:Hneg; [discriminate |].
    apply Z.ltb_ge in Hneg. lia.
  - rewrite <- Htroop.
    destruct (at_index (gameTroop w1) (Args.enemyIndex args)); [| reflexivity].
    simpl. apply length_insert.
Qed.

(** ** Removal, then accumulation *)

Lemma removal_then_accumulation
  (f : Battler -> Battler) (stateId : Z) (value : Q) (this : Battler) :
  isStateAccumulate stateId = true ->
  accumulationEntry
    (accumulateState stateId value
       (deleteAccumulation stateId (clearStateAccumulationsIfNeed (f this)))).2
    stateId
  = Some (0 + value)%Q.
Proof.
  intros Hkind. rewrite accumulateState_entry by assumption.
  unfold storedAccumulation.
  now rewrite (proj2 (deleteAccumulation_entry _ stateId
                        (proj1 (clear_tables_present _)))).
Qed.

(** X12: once a state has been removed, by [eraseState] or by
    [removeState], its accumulation starts again from 0: the next
    [accumulateState] for it leaves just the value it is given, whatever
    had been accumulated before. *)
Theorem accumulation_restarts_after_removal
  (stateId : Z) (value : Q) (this : Battler) :
  isStateAccumulate stateId = true ->
  accumulationEntry
    (accumulateState stateId value (eraseState stateId this)).2 stateId
  = Some (0 + value)%Q /\
  accumulationEntry
    (accumulateState stateId value (removeState stateId this)).2 stateId
  = Some (0 + value)%Q.
Proof.
  intros Hkind. unfold eraseState, removeState.
  split; now apply removal_then_accumulation.
Qed.

(** ** After a load *)

(** X13: the pass over [$gameActors._data] after a load keeps the length of
    the list and its empty slots; every actor comes out with both tables,
    with the host's part and every entry it had; and a second pass changes
    nothing. *)
Theorem rehydration_keeps_entries (_data : list (option Battler)) :
  length (Game_Actors_clearStateAccumulationsIfNeed _data) = length _data /\
  (forall i,
     _data !! i = Some None ->
     Game_Actors_clearStateAccumulationsIfNeed _data !! i = Some None) /\
  (forall i actor,
     _data !! i = Some (Some actor) ->
     exists actor',
       Game_Actors_clearStateAccumulationsIfNeed _data !! i = Some (Some actor') /\
       core actor' = core actor /\
       is_Some (_stateAccumulations actor') /\
       is_Some (_stateImmunity actor') /\
       forall k,
         accumulationEntry actor' k = accumulationEntry actor k /\
         immunityEntry actor' k = immunityEntry actor k) /\
  Game_Actors_clearStateAccumulationsIfNeed
    (Game_Actors_clearStateAccumulationsIfNeed _data)
  = Game_Actors_clearStateAccumulationsIfNeed _data.
Proof.
  unfold Game_Actors_clearStateAccumulationsIfNeed. split_and!.
  - apply length_fmap.
  - intros i Hslot. now rewrite list_lookup_fmap, Hslot.
  - intros i actor Hslot. eexists. rewrite list_lookup_fmap, Hslot. simpl.
    split_and!; try reflexivity; try apply clear_tables_present.
    intros k. split; [apply accumulationEntry_clear | apply immunityEntry_clear].
  - rewrite <- list_fmap_compose. apply list_fmap_ext.
    intros i [actor |] _; simpl; [| reflexivity].
    f_equal. unfold clearStateAccumulationsIfNeed; simpl.
    now destruct (_stateAccumulations actor), (_stateImmunity actor).
Qed.

(** ** Attack states that accumulate *)

Lemma attackStateTurn_raised
  (this : Game_Action) (effect : Effect) (log : list Diagnostic) (l : list Z) :
  foldl (attackStateTurn this effect) (log, None) l = (log, None).
Proof. induction l as [| s l IH]; [reflexivity | exact IH]. Qed.

(** X14: when the subject has no accumulative attack state the plugin adds
    nothing to the host's [itemEffectAddAttackState]; when it has one and
    the target is without immunity table, the call raises (at the first
    such state, before anything is accumulated). *)
Theorem itemEffectAddAttackState_edges
  (this : Game_Action) (target : Battler) (effect : Effect) :
  let base := _Game_Action_itemEffectAddAttackState this target effect in
  (attackStates (subject this base) (Some true) = [] ->
   itemEffectAddAttackState this target effect = ([], Some base)) /\
  (attackStates (subject this base) (Some true) <> [] ->
   _stateImmunity base = None ->
   (itemEffectAddAttackState this target effect).2 = None).
Proof.
  intros base. unfold itemEffectAddAttackState. fold base. split.
  - intros ->. reflexivity.
  - intros Hsome Htable.
    destruct (attackStates (subject this base) (Some true)) as [| s l];
      [congruence |].
    simpl.
    pose proof (proj2 (applyResistance_result_None this
                         (value1 effect * attackStatesRate (subject this base) s)%Q
                         base s) Htable) as Hnone.
    destruct (applyResistanceForAccumulateState _ _ _ _) as [log' rate].
    simpl in Hnone. subst rate. simpl.
    now rewrite attackStateTurn_raised.
Qed.

(** One turn on a target with its immunity table. *)
Lemma attackStateTurn_accumulates
  (this : Game_Action) (effect : Effect) (log : list Diagnostic)
  (target : Battler) (stateId : Z) :
  (forall s, keepsAccumulations (addState s)) ->
  keepsAccumulations (makeSuccess this) ->
  keepsImmunity (makeSuccess this) ->
  is_Some (_stateImmunity target) ->
  exists log' target',
    attackStateTurn this effect (log, Some target) stateId
    = (log', Some target') /\
    is_Some (_stateImmunity target') /\
    forall k,
      (storedAccumulation target k <= storedAccumulation target' k)%Q /\
      (storedAccumulation target' k <= storedAccumulation target k + 1)%Q /\
      immunityCount target k <= immunityCount target' k /\
      (k <> stateId -> accumulationEntry target' k = accumulationEntry target k).
Proof.
  intros Hadd Hsuccess Hsuccess_imm Htable. unfold attackStateTurn.
  set (accumulation :=
         (value1 effect * attackStatesRate (subject this target) stateId)%Q).
  rewrite (applyResistance_unfold _ _ _ _ _
             (getStateImmunity_present target stateId Htable)).
  set (rate := clamp _ 0 1). simpl.
  pose proof (clamp_range
                (applyLuck this target
                   (applyFormula accumulation target stateId).2 *
                 (1 - match immunityEntry target stateId with
                      | Some n => inject_Z n * ImmunityRate param / 100
                      | None => 0
                      end))) as Hrange.
  fold rate in Hrange.
  rewrite accumulateState_unfold.
  set (this1 := setAccumulation stateId (storedAccumulation target stateId + rate)%Q
                  (clearStateAccumulationsIfNeed target)).
  assert (is_Some (_stateImmunity (clearStateAccumulationsIfNeed target)))
    as Hclean by apply clear_tables_present.
  assert (forall k, immunityCount this1 k = immunityCount target k) as Hcount1.
  { intros k. unfold this1, immunityCount.
    now rewrite immunityEntry_setAccumulation, immunityEntry_clear. }
  assert (forall k, accumulationEntry this1 k
                    = if decide (stateId = k)
                      then Some (storedAccumulation target stateId + rate)%Q
                      else accumulationEntry target k) as Hentry1.
  { intros k. unfold this1.
    rewrite accumulationEntry_set by apply clear_tables_present.
    case_decide; [reflexivity | apply accumulationEntry_clear]. }
  assert (forall k,
            (storedAccumulation target k <= storedAccumulation this1 k)%Q /\
            (storedAccumulation this1 k <= storedAccumulation target k + 1)%Q /\
            (k <> stateId -> accumulationEntry this1 k = accumulationEntry target k))
    as Hstored1.
  { intros k. unfold storedAccumulation at 2 3. rewrite Hentry1.
    case_decide as Hk.
    - subst k. simpl. split_and!; [lra | lra | congruence].
    - fold (storedAccumulation target k). split_and!; [lra | lra | reflexivity]. }
  destruct (isStateAccumulate stateId); simpl.
  - destruct (negb (isStateAffected (core target) stateId) && Qle_bool 1 _); simpl.
    + set (activated := setImmunity stateId _ (addState stateId this1)).
      assert (is_Some (_stateImmunity activated)) as Hactivated.
      { unfold activated, setImmunity; simpl.
        destruct (proj1 (addState_keepsImmunity stateId this1) Hclean) as [m ->].
        simpl. eauto. }
      eexists _, _. split; [reflexivity |].
      split; [now apply Hsuccess_imm |].
      assert (forall k, accumulationEntry (makeSuccess this activated) k
                        = accumulationEntry this1 k) as Hfinal.
      { intros k. rewrite Hsuccess. unfold activated.
        now rewrite accumulationEntry_setImmunity, Hadd. }
      intros k. unfold storedAccumulation at 2 3. rewrite !Hfinal.
      fold (storedAccumulation this1 k).
      rewrite (keepsImmunity_count _ _ _ Hsuccess_imm).
      unfold activated. rewrite activation_immunity, Hcount1 by exact Hclean.
      destruct (Hstored1 k) as (Hlow & Hhigh & Hother).
      split_and!; [exact Hlow | exact Hhigh | case_decide; lia | exact Hother].
    + eexists _, _. split; [reflexivity |]. split; [exact Hclean |].
      intros k. rewrite Hcount1.
      destruct (Hstored1 k) as (Hlow & Hhigh & Hother).
      split_and!; [exact Hlow | exact Hhigh | lia | exact Hother].
  - eexists _, _. split; [reflexivity |]. split; [exact Hclean |].
    intros k. rewrite storedAccumulation_clear, immunityCount_clear.
    split_and!; [lra | lra | lia | intros _; apply accumulationEntry_clear].
Qed.

(** The whole loop on a target with its immunity table. *)
Lemma attackStateTurns_accumulate
  (this : Game_Action) (effect : Effect) (l : list Z) :
  (forall s, keepsAccumulations (addState s)) ->
  keepsAccumulations (makeSuccess this) ->
  keepsImmunity (makeSuccess this) ->
  forall log target,
    is_Some (_stateImmunity target) ->
    exists log' target',
      foldl (attackStateTurn this effect) (log, Some target) l
      = (log', Some target') /\
      forall k,
        (storedAccumulation target k <= storedAccumulation target' k)%Q /\
        (storedAccumulation target' k
         <= storedAccumulation target k + inject_Z (Z.of_nat (length l)))%Q /\
        immunityCount target k <= immunityCount target' k /\
        (k ∉ l -> accumulationEntry target' k = accumulationEntry target k).
Proof.
  intros Hadd Hsuccess Hsuccess_imm.
  induction l as [| s l IH]; intros log target Htable.
  - exists log, target. split; [reflexivity |]. intros k.
    change (inject_Z (Z.of_nat (length (@nil Z)))) with 0%Q.
    split_and!; [lra | lra | lia | reflexivity].
  - destruct (attackStateTurn_accumulates this effect log target s
                Hadd Hsuccess Hsuccess_imm Htable)
      as (log1 & target1 & Hturn & Htable1 & Hstep).
    destruct (IH log1 target1 Htable1) as (log' & target' & Hrest & Hloop).
    exists log', target'. split; [now rewrite <- Hrest, <- Hturn |].
    intros k. destruct (Hstep k) as (Hlow1 & Hhigh1 & Hcount1 & Hother1).
    destruct (Hloop k) as (Hlow & Hhigh & Hcount & Hother).
    split_and!.
    + lra.
    + change (length (s :: l)) with (S (length l)).
      rewrite Nat2Z.inj_succ. unfold Z.succ. rewrite inject_Z_plus.
      change (inject_Z 1) with 1%Q. lra.
    + lia.
    + intros Hk. rewrite not_elem_of_cons in Hk. destruct Hk as [Hne Hout].
      now rewrite (Hother Hout), (Hother1 Hne).
Qed.

(** X15: over a host whose [addState] and [makeSuccess] leave the
    accumulations and the immunity table alone, on a target that has its
    immunity table, [itemEffectAddAttackState] does not raise; it lowers no
    accumulation and no immunity count, raises an accumulation by at most 1
    for each accumulative attack state of the subject, and leaves the entry
    of every state that is no accumulative attack state of the subject as
    the host's [itemEffectAddAttackState] left it. *)
Theorem itemEffectAddAttackState_accumulates
  (this : Game_Action) (target : Battler) (effect : Effect) :
  let base := _Game_Action_itemEffectAddAttackState this target effect in
  let states := attackStates (subject this base) (Some true) in
  (forall s, keepsAccumulations (addState s)) ->
  keepsAccumulations (makeSuccess this) ->
  keepsImmunity (makeSuccess this) ->
  is_Some (_stateImmunity base) ->
  exists target',
    (itemEffectAddAttackState this target effect).2 = Some target' /\
    forall k,
      (storedAccumulation base k <= storedAccumulation target' k)%Q /\
      (storedAccumulation target' k
       <= storedAccumulation base k + inject_Z (Z.of_nat (length states)))%Q /\
      immunityCount base k <= immunityCount target' k /\
      (k ∉ states -> accumulationEntry target' k = accumulationEntry base k).
Proof.
  intros base states Hadd Hsuccess Hsuccess_imm Htable.
  unfold itemEffectAddAttackState. fold base. fold states.
  destruct (attackStateTurns_accumulate this effect states
              Hadd Hsuccess Hsuccess_imm [] base Htable)
    as (log' & target' & -> & Hloop).
  exists target'. split; [reflexivity | exact Hloop].
Qed.

(** ** The gauge *)

Lemma updateRate_cases (this : Sprite_AccumulateState) (_battler : Battler)
  (accumulation : Q) :
  getGaugeStateAccumulation _battler = Some accumulation ->
  exists this' rate,
    updateRate this _battler = Some this' /\
    _rate this' = Some rate /\
    (rate == Qmin accumulation 1)%Q /\
    (frames this' = frames this \/
     frames this' = frames this ++ [Qmin accumulation 1]).
Proof.
  intros Hgauge. unfold updateRate. rewrite Hgauge. simpl. unfold differs.
  destruct this as [[last |] drawn]; simpl.
  - destruct (Qeq_bool (Qmin accumulation 1) last) eqn:Hsame; simpl.
    + apply Qeq_bool_iff in Hsame. eexists _, _. split; [reflexivity |].
      simpl. split_and!; [reflexivity | now symmetry | now left].
    + eexists _, _. split; [reflexivity |]. simpl.
      split_and!; [reflexivity | reflexivity | now right].
  - eexists _, _. split; [reflexivity |]. simpl.
    split_and!; [reflexivity | reflexivity | now right].
Qed.

(** X16: [updateRate] raises exactly when the battler has no accumulation
    table.  Otherwise the rate the sprite holds afterwards is the smaller of
    the accumulation of the gauge state and 1: never above 1, and the
    accumulation itself when that is at most 1, a negative one included;
    without a gauge state it is 0. *)
Theorem updateRate_shows_accumulation
  (this : Sprite_AccumulateState) (_battler : Battler) :
  (updateRate this _battler = None <-> _stateAccumulations _battler = None) /\
  (forall this',
     updateRate this _battler = Some this' ->
     exists rate accumulation,
       _rate this' = Some rate /\
       getGaugeStateAccumulation _battler = Some accumulation /\
       (rate <= 1)%Q /\
       ((accumulation <= 1)%Q -> (rate == accumulation)%Q) /\
       ((1 <= accumulation)%Q -> (rate == 1)%Q) /\
       (getGaugeStateId (core _battler) = None -> (rate == 0)%Q)).
Proof.
  assert (getGaugeStateAccumulation _battler = None
          <-> _stateAccumulations _battler = None) as Hraises.
  { unfold getGaugeStateAccumulation, getStateAccumulation.
    destruct (getGaugeStateId (core _battler)),
      (_stateAccumulations _battler); simpl; split; congruence. }
  split.
  - rewrite <- Hraises. unfold updateRate.
    destruct (getGaugeStateAccumulation _battler); simpl;
      [| split; congruence].
    destruct (differs _ _); split; congruence.
  - intros this' Hupdate.
    destruct (getGaugeStateAccumulation _battler) as [accumulation |] eqn:Hgauge.
    + destruct (updateRate_cases this _battler accumulation Hgauge)
        as (this'' & rate & Hupdate' & Hrate & Hmin & _).
      rewrite Hupdate in Hupdate'. injection Hupdate' as <-.
      exists rate, accumulation. split_and!; try assumption; try reflexivity.
      * rewrite Hmin. apply Q.le_min_r.
      * intros Hle. rewrite Hmin. now apply Q.min_l.
      * intros Hle. rewrite Hmin. now apply Q.min_r.
      * intros Hnone. rewrite Hmin.
        unfold getGaugeStateAccumulation in Hgauge. rewrite Hnone in Hgauge.
        destruct (_stateAccumulations _battler); simpl in Hgauge;
          [| discriminate].
        injection Hgauge as <-. reflexivity.
    + unfold updateRate in Hupdate. rewrite Hgauge in Hupdate. discriminate.
Qed.

(** X17: [updateRate] asks for a frame only when the rate has changed: it
    adds at most one frame, and a second call on the same battler adds none
    and leaves the sprite as the first call left it. *)
Theorem updateRate_redraws_on_change
  (this this' : Sprite_AccumulateState) (_battler : Battler) :
  updateRate this _battler = Some this' ->
  updateRate this' _battler = Some this' /\
  (frames this' = frames this \/
   exists rate, frames this' = frames this ++ [rate]).
Proof.
  intros Hupdate.
  destruct (getGaugeStateAccumulation _battler) as [accumulation |] eqn:Hgauge;
    [| unfold updateRate in Hupdate; rewrite Hgauge in Hupdate; discriminate].
  destruct (updateRate_cases this _battler accumulation Hgauge)
    as (this'' & rate & Hupdate' & Hrate & Hmin & Hframes).
  rewrite Hupdate in Hupdate'. injection Hupdate' as <-.
  split; [| destruct Hframes; eauto].
  unfold updateRate. rewrite Hgauge. simpl. unfold differs. rewrite Hrate.
  apply Qeq_sym, Qeq_bool_iff in Hmin. now rewrite Hmin.
Qed.

(** X18: while a state is the gauge state of a battler, the gauge is full
    (a rate of 1) right after [accumulateState] has activated the state,
    whatever the total above 1, and empty (a rate of 0) right after
    [removeState] or [eraseState] has removed it. *)
Theorem gauge_full_then_empty
  (this : Sprite_AccumulateState) (stateId : Z) (value : Q) (_battler : Battler) :
  ((accumulateState stateId value _battler).1 = true ->
   getGaugeStateId (core (accumulateState stateId value _battler).2)
   = Some stateId ->
   exists this' rate,
     updateRate this (accumulateState stateId value _battler).2 = Some this' /\
     _rate this' = Some rate /\ (rate == 1)%Q) /\
  (getGaugeStateId (core (removeState stateId _battler)) = Some stateId ->
   exists this' rate,
     updateRate this (removeState stateId _battler) = Some this' /\
     _rate this' = Some rate /\ (rate == 0)%Q) /\
  (getGaugeStateId (core (eraseState stateId _battler)) = Some stateId ->
   exists this' rate,
     updateRate this (eraseState stateId _battler) = Some this' /\
     _rate this' = Some rate /\ (rate == 0)%Q).
Proof.
  split_and!.
  - intros Hactivated Hgauge.
    assert (isStateAccumulate stateId = true /\
            Qle_bool 1 (storedAccumulation _battler stateId + value) = true)
      as [Hkind Htotal].
    { rewrite accumulateState_unfold in Hactivated.
      destruct (isStateAccumulate stateId); [| discriminate].
      destruct (negb _), (Qle_bool 1 _); simpl in Hactivated;
        try discriminate. now split. }
    apply Qle_bool_iff in Htotal.
    pose proof (accumulateState_entry stateId value _battler Hkind) as Hentry.
    assert (getGaugeStateAccumulation (accumulateState stateId value _battler).2
            = Some (storedAccumulation _battler stateId + value)%Q) as Hread.
    { unfold getGaugeStateAccumulation. rewrite Hgauge.
      unfold getStateAccumulation. unfold accumulationEntry in Hentry.
      destruct (_stateAccumulations (accumulateState stateId value _battler).2);
        simpl in Hentry |- *; [now rewrite Hentry | discriminate]. }
    destruct (updateRate_cases this _ _ Hread)
      as (this' & rate & Hupdate & Hrate & Hmin & _).
    exists this', rate. split_and!; [assumption | assumption |].
    rewrite Hmin. now apply Q.min_r.
  - intros Hgauge.
    assert (getGaugeStateAccumulation (removeState stateId _battler) = Some 0%Q)
      as Hread.
    { unfold getGaugeStateAccumulation. rewrite Hgauge. unfold removeState.
      apply deleteAccumulation_entry, clear_tables_present. }
    destruct (updateRate_cases this _ _ Hread)
      as (this' & rate & Hupdate & Hrate & Hmin & _).
    exists this', rate. split_and!; [assumption | assumption |].
    rewrite Hmin. reflexivity.
  - intros Hgauge.
    assert (getGaugeStateAccumulation (eraseState stateId _battler) = Some 0%Q)
      as Hread.
    { unfold getGaugeStateAccumulation. rewrite Hgauge. unfold eraseState.
      apply deleteAccumulation_entry, clear_tables_present. }
    destruct (updateRate_cases this _ _ Hread)
      as (this' & rate & Hupdate & Hrate & Hmin & _).
    exists this', rate. split_and!; [assumption | assumption |].
    rewrite Hmin. reflexivity.
Qed.

(** ** Immunity only dampens *)

Lemma clamp_monotone (x y : Q) :
  (x <= y)%Q -> (clamp x 0 1 <= clamp y 0 1)%Q.
Proof.
  intros Hle. unfold clamp.
  apply Q.min_le_compat_r, Q.max_le_compat_r, Hle.
Qed.

(** X19: for a value that is not negative when it reaches the immunity
    factor, and an ImmunityRate that is not negative, the rate
    [applyResistanceForAccumulateState] returns does not grow with the
    immunity count: of two targets that differ in their immunity tables
    only, the one with the higher count for the state gets the lower rate,
    or the same. *)
Theorem immunity_only_dampens
  (this : Game_Action) (effectValue : Q) (target target' : Battler)
  (stateId : Z) :
  core target = core target' ->
  is_Some (_stateImmunity target) ->
  is_Some (_stateImmunity target') ->
  immunityCount target stateId <= immunityCount target' stateId ->
  (0 <= ImmunityRate param)%Q ->
  (0 <= applyLuck this target (applyFormula effectValue target stateId).2)%Q ->
  exists rate rate',
    (applyResistanceForAccumulateState this effectValue target stateId).2
    = Some rate /\
    (applyResistanceForAccumulateState this effectValue target' stateId).2
    = Some rate' /\
    (rate' <= rate)%Q.
Proof.
  intros Hcore Htable Htable' Hcount Hrate Hvalue.
  rewrite (applyResistance_unfold _ _ _ _ _
             (getStateImmunity_present target stateId Htable)).
  rewrite (applyResistance_unfold _ _ _ _ _
             (getStateImmunity_present target' stateId Htable')).
  simpl. eexists _, _. split_and!; [reflexivity | reflexivity |].
  assert (applyLuck this target' (applyFormula effectValue target' stateId).2
          = applyLuck this target (applyFormula effectValue target stateId).2)
    as -> by (unfold applyLuck, applyFormula; now rewrite Hcore).
  set (v := applyLuck this target (applyFormula effectValue target stateId).2)
    in Hvalue |- *.
  apply clamp_monotone.
  assert (match immunityEntry target stateId with
          | Some n => inject_Z n * ImmunityRate param / 100
          | None => 0
          end == inject_Z (immunityCount target stateId)
                 * ImmunityRate param / 100)%Q as ->.
  { unfold immunityCount. destruct (immunityEntry target stateId); simpl;
      [reflexivity |]. change (inject_Z 0) with 0%Q. field. }
  assert (match immunityEntry target' stateId with
          | Some n => inject_Z n * ImmunityRate param / 100
          | None => 0
          end == inject_Z (immunityCount target' stateId)
                 * ImmunityRate param / 100)%Q as ->.
  { unfold immunityCount. destruct (immunityEntry target' stateId); simpl;
      [reflexivity |]. change (inject_Z 0) with 0%Q. field. }
  rewrite Zle_Qle in Hcount.
  set (n := inject_Z (immunityCount target stateId)) in Hcount |- *.
  set (n' := inject_Z (immunityCount target' stateId)) in Hcount |- *.
  set (r := ImmunityRate param) in Hrate |- *.
  assert (n * r / 100 <= n' * r / 100)%Q as Himm.
  { unfold Qdiv. apply Qmult_le_compat_r; [| vm_compute; discriminate].
    now apply Qmult_le_compat_r. }
  nra.
Qed.

(** ** Only accumulative states accumulate *)

Lemma perform_keysAccumulative (op : Operation) (this this' : Battler) :
  hostAddsNoKey ->
  keysAccumulative this ->
  perform op this = Some this' ->
  keysAccumulative this'.
Proof.
  intros (Hadd & Hclear & Herase & Hremove & Hbattle) Hkeys.
  destruct op as [| s | s | s | s v | |]; simpl.
  - intros [= <-] k. unfold clearStates. rewrite accumulationEntry_clear.
    intros Hk. now apply Hkeys, Hclear.
  - intros [= <-] k. unfold eraseState.
    rewrite accumulationEntry_delete, accumulationEntry_clear.
    case_decide; [now intros [? ?] |]. intros Hk. now apply Hkeys, (Herase s).
  - intros [= <-] k. unfold removeState.
    rewrite accumulationEntry_delete, accumulationEntry_clear.
    case_decide; [now intros [? ?] |]. intros Hk. now apply Hkeys, (Hremove s).
  - intros [= <-] k Hk. now apply Hkeys, (Hadd s).
  - intros [= <-] k. rewrite accumulateState_unfold.
    assert (is_Some (accumulationEntry (clearStateAccumulationsIfNeed this) k) ->
            isStateAccumulate k = true) as Hclean
      by (rewrite accumulationEntry_clear; apply Hkeys).
    destruct (isStateAccumulate s) eqn:Hkind; simpl; [| exact Hclean].
    assert (is_Some
              (accumulationEntry
                 (setAccumulation s (storedAccumulation this s + v)%Q
                    (clearStateAccumulationsIfNeed this)) k) ->
            isStateAccumulate k = true) as Hwritten.
    { rewrite accumulationEntry_set by apply clear_tables_present.
      case_decide as Hk; [| exact Hclean]. now subst k. }
    destruct (negb (isStateAffected (core this) s) && Qle_bool 1 _); simpl;
      [| exact Hwritten].
    rewrite accumulationEntry_setImmunity. intros Hk.
    now apply Hwritten, (Hadd s).
  - intros Hdone k Hk.
    assert (keysAccumulative (_Game_Battler_removeBattleStates this)) as Hbase
      by (intros j Hj; now apply Hkeys, Hbattle).
    apply Hbase. apply (removeBattleStates_keys this this' k);
      [| assumption | assumption].
    intros j Hj. now apply isStateAccumulate_in_database, Hbase.
  - intros [= <-] k. rewrite accumulationEntry_clear. apply Hkeys.
Qed.

(** X20: over a host that writes no key of its own, the accumulation table
    of a battler that starts without entries never gets a key that is not
    an accumulative state, whatever the operations: every key is above 0
    and carries the tag in the database. *)
Theorem only_accumulative_states_accumulate :
  hostAddsNoKey ->
  forall ops this this',
    keysAccumulative this ->
    performAll ops this = Some this' ->
    keysAccumulative this' /\
    forall k,
      is_Some (accumulationEntry this' k) ->
      0 < k /\
      exists state, dataStates k = Some state /\ metaAccumulate state = true.
Proof.
  intros Hhost.
  assert (forall ops this this',
            keysAccumulative this ->
            performAll ops this = Some this' -> keysAccumulative this') as Hkeep.
  { induction ops as [| op ops IH]; intros this this' Hkeys Hrun.
    - now injection Hrun as <-.
    - simpl in Hrun. destruct (perform op this) as [this1 |] eqn:Hop;
        [| discriminate].
      simpl in Hrun.
      exact (IH _ _ (perform_keysAccumulative _ _ _ Hhost Hkeys Hop) Hrun). }
  intros ops this this' Hkeys Hrun.
  pose proof (Hkeep ops this this' Hkeys Hrun) as Hkeys'.
  split; [exact Hkeys' |].
  intros k Hk. apply Hkeys' in Hk. unfold isStateAccumulate in Hk.
  apply andb_true_iff in Hk as [Hpositive Hmeta].
  apply Z.ltb_lt in Hpositive. split; [exact Hpositive |].
  destruct (dataStates k) as [state |]; [eauto | discriminate].
Qed.

(** X21: the ACCUMULATE command for a state that is not accumulative
    changes no stored value: every actor and every enemy keeps its host
    part and every entry of both tables (the named ones get their tables
    if they had none). *)
Theorem ACCUMULATE_other_state_changes_nothing (args : Args.t) (w : World) :
  isStateAccumulate (Args.stateId args) = false ->
  (forall id actor,
     gameActors w !! id = Some actor ->
     exists actor',
       gameActors (ACCUMULATE args w) !! id = Some actor' /\
       core actor' = core actor /\
       forall k,
         accumulationEntry actor' k = accumulationEntry actor k /\
         immunityEntry actor' k = immunityEntry actor k) /\
  (forall i enemy,
     gameTroop w !! i = Some enemy ->
     exists enemy',
       gameTroop (ACCUMULATE args w) !! i = Some enemy' /\
       core enemy' = core enemy /\
       forall k,
         accumulationEntry enemy' k = accumulationEntry enemy k /\
         immunityEntry enemy' k = immunityEntry enemy k).
Proof.
  intros Hkind.
  assert (forall value (this : Battler),
            (accumulateState (Args.stateId args) value this).2
            = clearStateAccumulationsIfNeed this) as Hnothing
    by (intros value this; now rewrite accumulateState_unfold, Hkind).
  unfold ACCUMULATE.
  set (w1 := match gameActors w !! Args.actorId args with
             | Some actor => _
             | None => w
             end).
  assert (gameTroop w1 = gameTroop w) as Htroop
    by (unfold w1; now destruct (gameActors w !! Args.actorId args)).
  assert (forall id actor,
            gameActors w !! id = Some actor ->
            exists actor',
              gameActors w1 !! id = Some actor' /\
              core actor' = core actor /\
              forall k,
                accumulationEntry actor' k = accumulationEntry actor k /\
                immunityEntry actor' k = immunityEntry actor k) as Hactors.
  { intros id actor Hactor. unfold w1.
    destruct (gameActors w !! Args.actorId args) as [named |] eqn:Hnamed;
      [| exists actor; now split_and!].
    simpl. rewrite Hnothing.
    destruct (decide (Args.actorId args = id)) as [Hid | Hid].
    - subst id. rewrite lookup_insert_eq.
      assert (named = actor) as -> by congruence.
      eexists. split_and!; try reflexivity.
      intros k. now rewrite accumulationEntry_clear, immunityEntry_clear.
    - rewrite lookup_insert_ne by assumption.
      exists actor. now split_and!. }
  split.
  - intros id actor Hactor.
    destruct (Hactors id actor Hactor) as (actor' & Hlookup & Hrest).
    exists actor'. split; [| exact Hrest].
    now destruct (at_index (gameTroop w1) (Args.enemyIndex args)).
  - intros i enemy Henemy. rewrite <- Htroop in Henemy.
    destruct (at_index (gameTroop w1) (Args.enemyIndex args)) as [named |]
      eqn:Hnamed; [| exists enemy; now split_and!].
    simpl. rewrite Hnothing.
    unfold at_index in Hnamed.
    destruct (Args.enemyIndex args <? 0); [discriminate |].
    destruct (decide (Z.to_nat (Args.enemyIndex args) = i)) as [Hi | Hi].
    + subst i.
      rewrite list_lookup_insert_eq by (eapply lookup_lt_Some; exact Hnamed).
      assert (named = enemy) as -> by congruence.
      eexists. split_and!; try reflexivity.
      intros k. now rewrite accumulationEntry_clear, immunityEntry_clear.
    + rewrite list_lookup_insert_ne by assumption.
      exists enemy. now split_and!.
Qed.

(** ** States added by an effect *)

(** X22: for a state that is not accumulative [itemEffectAddNormalState]
    is the host's, with nothing logged.  For an accumulative one, over a
    host whose [addState] and [makeSuccess] leave the accumulations and the
    immunity table alone, with the resistance applied on a target that has
    its immunity table, the call does not raise, raises the accumulation of
    the state by a rate between 0 and 1, lowers no immunity count and
    leaves every other accumulation entry alone. *)
Theorem itemEffectAddNormalState_accumulates
  (this : Game_Action) (target : Battler) (effect : Effect) :
  (forall s, keepsAccumulations (addState s)) ->
  keepsAccumulations (makeSuccess this) ->
  keepsImmunity (makeSuccess this) ->
  (isStateAccumulate (dataId effect) = false ->
   itemEffectAddNormalState this target effect
   = ([], Some (_Game_Action_itemEffectAddNormalState this target effect))) /\
  (isStateAccumulate (dataId effect) = true ->
   isCertainHit this && CertainHit param = false ->
   is_Some (_stateImmunity target) ->
   exists target',
     (itemEffectAddNormalState this target effect).2 = Some target' /\
     forall k,
       (storedAccumulation target k <= storedAccumulation target' k)%Q /\
       (storedAccumulation target' k <= storedAccumulation target k + 1)%Q /\
       immunityCount target k <= immunityCount target' k /\
       (k <> dataId effect ->
        accumulationEntry target' k = accumulationEntry target k)).
Proof.
  intros Hadd Hsuccess Hsuccess_imm. split.
  - intros Hkind. unfold itemEffectAddNormalState. now rewrite Hkind.
  - intros Hkind Hpath Htable.
    unfold itemEffectAddNormalState, normalStateAccumulation. rewrite Hkind.
    replace (negb (isCertainHit this) || negb (CertainHit param)) with true
      by (destruct (isCertainHit this), (CertainHit param); simpl in Hpath |- *;
          congruence).
    rewrite (applyResistance_unfold _ _ _ _ _
               (getStateImmunity_present target (dataId effect) Htable)).
    set (rate := clamp _ 0 1). simpl.
    pose proof (clamp_range
                  (applyLuck this target
                     (applyFormula (value1 effect) target (dataId effect)).2 *
                   (1 - match immunityEntry target (dataId effect) with
                        | Some n => inject_Z n * ImmunityRate param / 100
                        | None => 0
                        end))) as Hrange.
    fold rate in Hrange.
    rewrite accumulateState_unfold, Hkind.
    set (this1 := setAccumulation (dataId effect)
                    (storedAccumulation target (dataId effect) + rate)%Q
                    (clearStateAccumulationsIfNeed target)).
    assert (is_Some (_stateImmunity (clearStateAccumulationsIfNeed target)))
      as Hclean by apply clear_tables_present.
    assert (forall k, immunityCount this1 k = immunityCount target k) as Hcount1.
    { intros k. unfold this1, immunityCount.
      now rewrite immunityEntry_setAccumulation, immunityEntry_clear. }
    assert (forall k,
              (storedAccumulation target k <= storedAccumulation this1 k)%Q /\
              (storedAccumulation this1 k <= storedAccumulation target k + 1)%Q /\
              (k <> dataId effect ->
               accumulationEntry this1 k = accumulationEntry target k))
      as Hstored1.
    { intros k. unfold storedAccumulation at 2 3. unfold this1.
      rewrite accumulationEntry_set by apply clear_tables_present.
      rewrite accumulationEntry_clear.
      case_decide as Hk.
      - subst k. simpl. split_and!; [lra | lra | congruence].
      - fold (storedAccumulation target k).
        split_and!; [lra | lra | reflexivity]. }
    destruct (negb (isStateAffected (core target) (dataId effect)) && Qle_bool 1 _);
      simpl.
    + set (activated := setImmunity (dataId effect) _
                          (addState (dataId effect) this1)).
      assert (forall k, accumulationEntry (makeSuccess this activated) k
                        = accumulationEntry this1 k) as Hfinal.
      { intros k. rewrite Hsuccess. unfold activated.
        now rewrite accumulationEntry_setImmunity, Hadd. }
      eexists. split; [reflexivity |].
      intros k. unfold storedAccumulation at 2 3. rewrite !Hfinal.
      fold (storedAccumulation this1 k).
      rewrite (keepsImmunity_count _ _ _ Hsuccess_imm).
      unfold activated. rewrite activation_immunity, Hcount1 by exact Hclean.
      destruct (Hstored1 k) as (Hlow & Hhigh & Hother).
      split_and!; [exact Hlow | exact Hhigh | case_decide; lia | exact Hother].
    + eexists. split; [reflexivity |].
      intros k. rewrite Hcount1.
      destruct (Hstored1 k) as (Hlow & Hhigh & Hother).
      split_and!; [exact Hlow | exact Hhigh | lia | exact Hother].
Qed.

End Plugin.

(** ** The reference host keeps its side of the contract *)

Lemma host_addState_keepsImmunity :
  forall stateId, keepsImmunity (Host.addState stateId).
Proof.
  intros stateId this. unfold Host.addState.
  destruct (Host.isStateAffected (core this) stateId); split; auto.
Qed.

Lemma host_addState_keepsAccumulation :
  forall stateId (this : Game_Battler Host.Core),
    accumulationEntry (Host.addState stateId this) stateId
    = accumulationEntry this stateId.
Proof.
  intros stateId this. unfold Host.addState.
  now destruct (Host.isStateAffected (core this) stateId).
Qed.

Lemma host_clearStates_keepsTables :
  forall this : Game_Battler Host.Core,
    _stateAccumulations (Host.clearStates this) = _stateAccumulations this /\
    _stateImmunity (Host.clearStates this) = _stateImmunity this.
Proof. intros this. split; reflexivity. Qed.

Lemma host_eraseState_keepsImmunity :
  forall stateId, keepsImmunity (Host.eraseState stateId).
Proof. intros stateId this. split; auto. Qed.

Lemma host_removeState_keepsImmunity :
  forall stateId, keepsImmunity (Host.removeState stateId).
Proof. intros stateId this. split; auto. Qed.

Lemma host_removeBattleStates_keepsImmunity :
  keepsImmunity Host.removeBattleStates.
Proof. intros this. split; auto. Qed.

(** The keys of a table holding states 3 and 4 are states of the
    database. *)
Lemma host_entries_defined (a b : Q) (immunity : list (Z * Z)) :
  forall k,
    is_Some (accumulationEntry
               (Host.removeBattleStates (Host.battler [(3, a); (4, b)] immunity)) k) ->
    is_Some (Host.dataStates k).
Proof.
  intros k. unfold accumulationEntry, Host.removeBattleStates, Host.battler.
  simpl. unfold Host.dataStates.
  destruct (decide (k = 3)) as [-> | H3]; [eauto |].
  destruct (decide (k = 4)) as [-> | H4]; [eauto |].
  rewrite lookup_insert_ne, lookup_insert_ne, lookup_empty by congruence.
  now intros [? ?].
Qed.

(** ** The properties on concrete battlers *)

(** The examples of the plugin's help text: an infliction of 0.8 on a
    state rate of 0.5 accumulates 0.4; with the formula [a - (1.0 - b)] it
    accumulates 0.3. *)
Example help_text_product :
  exists rate,
    applyResistanceForAccumulateState (Host.paramFormula EmptyString)
      (fun a _ => Host.luck a) (fun _ _ => 1 # 2) Host.eval
      {| Host.certain := false; Host.luck := 1 |} (8 # 10) (Host.battler [] []) 3
    = ([], Some rate) /\
    (rate == 4 # 10)%Q.
Proof. eexists. split; reflexivity. Qed.

Example help_text_formula :
  exists rate,
    applyResistanceForAccumulateState (Host.paramFormula "a - (1.0 - b)")
      (fun a _ => Host.luck a) (fun _ _ => 1 # 2) Host.eval
      {| Host.certain := false; Host.luck := 1 |} (8 # 10) (Host.battler [] []) 3
    = ([], Some rate) /\
    (rate == 3 # 10)%Q.
Proof. eexists. split; reflexivity. Qed.

(** A first 0.4 does not activate state 3; a further 0.65 does. *)
Example first_accumulation_stays_below :
  accumulateState Host.dataStates Host.isStateAffected Host.addState
    3 (4 # 10) (Host.battler [] [])
  = (false, Host.battler [(3, (0 + (4 # 10))%Q)] []).
Proof. reflexivity. Qed.

Lemma accumulateState_spec_witness :
  let this := Host.battler [(3, 4 # 10)] [] in
  let call :=
    accumulateState Host.dataStates Host.isStateAffected Host.addState
      3 (65 # 100) this in
  call.1 = true /\
  accumulationEntry call.2 3 = Some (storedAccumulation this 3 + (65 # 100))%Q /\
  immunityCount call.2 3 = immunityCount this 3 + 1.
Proof.
  intros this call.
  pose proof (accumulateState_spec Host.dataStates Host.isStateAffected
                Host.addState host_addState_keepsImmunity
                host_addState_keepsAccumulation 3 (65 # 100)%Q this)
    as (Hiff & Hentry & Htrue & _).
  assert (call.1 = true) as Hresult.
  { apply Hiff. split_and!; [reflexivity | reflexivity |].
    vm_compute. discriminate. }
  split_and!.
  - exact Hresult.
  - apply Hentry. reflexivity.
  - apply Htrue. exact Hresult.
Defined.


(** The example of the plugin's help: an infliction of 0.8 on a state rate
    of 0.5 without luck correction; the rate is clamped. *)
Lemma applied_rate_is_clamped_witness :
  let target := Host.battler [] [] in
  let effect := {| dataId := 3; value1 := 8 # 10 |} in
  let this := {| Host.certain := false; Host.luck := 1 |} in
  is_Some (_stateImmunity target) /\
  exists raw,
    (normalStateAccumulation (Host.paramFormula EmptyString) Host.certain
       (fun a _ => Host.luck a) (fun _ _ => 1 # 2) Host.eval
       this target effect).2 = Some (clamp raw 0 1) /\
    (0 <= clamp raw 0 1 <= 1)%Q.
Proof.
  intros target effect this.
  assert (is_Some (_stateImmunity target)) as Hpresent
    by (eexists; reflexivity).
  split; [exact Hpresent |].
  apply (applied_rate_is_clamped (Host.paramFormula EmptyString) Host.certain
           (fun a _ => Host.luck a) (fun _ _ => 1 # 2) Host.eval
           this target effect Hpresent).
  reflexivity.
Defined.

Lemma certain_hit_rate_is_direct_witness :
  let target := Host.battler [] [] in
  let effect := {| dataId := 3; value1 := 2 |} in
  let this := {| Host.certain := true; Host.luck := 1 # 2 |} in
  normalStateAccumulation Host.param Host.certain
    (fun a _ => Host.luck a) (fun _ _ => 1 # 2) Host.eval this target effect
  = ([], Some 2%Q).
Proof.
  intros target effect this.
  apply (certain_hit_rate_is_direct Host.dataStates Host.param
           Host.isStateAffected Host.addState Host.certain
           (fun a _ => Host.luck a) (fun _ _ => 1 # 2)
           (fun _ target => target) (fun _ target _ => target) Host.eval
           this target effect).
  - reflexivity.
  - reflexivity.
Defined.

Lemma failed_formula_keeps_infliction_witness :
  let target := Host.battler [] [] in
  let this := {| Host.certain := false; Host.luck := 1 |} in
  applyResistanceForAccumulateState (Host.paramFormula "a - b)")
    (fun a _ => Host.luck a) (fun _ _ => 1 # 2) Host.eval this (1 # 2) target 3
  = ([PlayBuzzer;
      ConsoleWarn "Script Error : a - b)";
      ConsoleWarn "SyntaxError: Unexpected identifier"],
     Some (clamp ((1 # 2) * (1 - 0)) 0 1)).
Proof.
  intros target this.
  apply (failed_formula_keeps_infliction (Host.paramFormula "a - b)")
           (fun a _ => Host.luck a) (fun _ _ => 1 # 2) Host.eval
           this (1 # 2)%Q target 3 "SyntaxError: Unexpected identifier" 0%Q).
  - reflexivity.
  - reflexivity.
  - reflexivity.
Defined.

Lemma clearStates_keeps_entries_witness :
  let this := Host.battler [(3, 1 # 2)] [(3, 1)] in
  accumulationEntry (clearStates Host.clearStates this) 3 = Some (1 # 2) /\
  immunityEntry (clearStates Host.clearStates this) 3 = Some 1.
Proof.
  intros this.
  destruct (clearStates_keeps_entries Host.clearStates
              host_clearStates_keepsTables this) as (_ & _ & Hentries).
  destruct (Hentries 3) as [Hacc Himm].
  split; [rewrite Hacc | rewrite Himm]; reflexivity.
Defined.

(** Removing state 3 from a battler that has it at 1.05 with one
    activation behind it; and clearing all its states instead. *)
Lemma removal_zeroes_accumulation_witness :
  let this := mkBattler [3] (Some {[3 := 105 # 100]}) (Some {[3 := 1]}) in
  getStateAccumulation (removeState Host.removeState 3 this) 3 = Some 0%Q /\
  immunityCount (removeState Host.removeState 3 this) 3 = 1 /\
  getStateAccumulation (eraseState Host.eraseState 3 this) 3 = Some 0%Q /\
  immunityCount (eraseState Host.eraseState 3 this) 3 = 1 /\
  getStateAccumulation (clearStates Host.clearStates this) 3
  = Some (105 # 100) /\
  immunityCount (clearStates Host.clearStates this) 3 = 1 /\
  Host.isStateAffected (core (clearStates Host.clearStates this)) 3 = false.
Proof.
  intros this.
  destruct (removal_zeroes_accumulation Host.isStateAffected Host.clearStates
              Host.eraseState Host.removeState
              host_clearStates_keepsTables
              host_eraseState_keepsImmunity host_removeState_keepsImmunity
              3 this)
    as ((Herase & _ & Herase_imm) & (Hremove & _ & Hremove_imm)
        & (Hclear & _ & Hclear_imm & Hinactive)).
  split_and!.
  - exact Hremove.
  - rewrite Hremove_imm. reflexivity.
  - exact Herase.
  - rewrite Herase_imm. reflexivity.
  - rewrite Hclear. reflexivity.
  - rewrite Hclear_imm. reflexivity.
  - apply Hinactive. intros b s. reflexivity.
Defined.

(** State 3 (removed at battle end) and state 4 (kept) both at 0.6. *)
Lemma removeBattleStates_resets_flagged_witness :
  let this := Host.battler [(3, 6 # 10); (4, 6 # 10)] [] in
  (exists this',
     removeBattleStates Host.dataStates Host.paramReset Host.removeBattleStates
       this = Some this' /\
     accumulationEntry this' 3 = Some 0%Q /\
     accumulationEntry this' 4 = Some (6 # 10)) /\
  removeBattleStates Host.dataStates Host.param Host.removeBattleStates this
  = Some this.
Proof.
  intros this.
  destruct (removeBattleStates_resets_flagged Host.dataStates Host.paramReset
              Host.removeBattleStates this
              (host_entries_defined (6 # 10) (6 # 10) []))
    as [Hon _].
  destruct (removeBattleStates_resets_flagged Host.dataStates Host.param
              Host.removeBattleStates this
              (host_entries_defined (6 # 10) (6 # 10) []))
    as [_ Hoff].
  split; [| exact (Hoff eq_refl)].
  destruct (Hon eq_refl) as (this' & Hrun & _ & _ & Hentries).
  exists this'. split_and!.
  - exact Hrun.
  - apply (Hentries 3). split; [reflexivity | reflexivity].
  - apply (Hentries 4). intros [Hflag _]. discriminate.
Defined.

Lemma activation_is_one_shot_witness :
  let this := mkBattler [3] (Some {[3 := 105 # 100]}) (Some {[3 := 1]}) in
  (accumulateState Host.dataStates Host.isStateAffected Host.addState
     3 (1 # 2) this).1 = false /\
  immunityCount
    (accumulateState Host.dataStates Host.isStateAffected Host.addState
       3 (1 # 2) this).2 3 = 1 /\
  forall this',
    performAll Host.dataStates Host.paramReset Host.isStateAffected
      Host.addState Host.clearStates Host.eraseState Host.removeState
      Host.removeBattleStates
      [OpRemoveState 3; OpAccumulateState 3 2; OpClearStates;
       OpRemoveBattleStates; OpAfterLoad] this = Some this' ->
    1 <= immunityCount this' 3.
Proof.
  intros this.
  destruct (activation_is_one_shot Host.dataStates Host.paramReset
              Host.isStateAffected Host.addState Host.clearStates
              Host.eraseState Host.removeState Host.removeBattleStates
              host_addState_keepsImmunity host_clearStates_keepsTables
              host_eraseState_keepsImmunity host_removeState_keepsImmunity
              host_removeBattleStates_keepsImmunity) as [Hactive Hmonotone].
  destruct (Hactive 3 (1 # 2)%Q this eq_refl) as (Hresult & _ & Hcount).
  split_and!.
  - exact Hresult.
  - rewrite Hcount. reflexivity.
  - intros this' Hrun. apply (Hmonotone _ _ _ Hrun 3).
Defined.

(** State 3 triggered once, an ImmunityRate of 100, and a certain hit of
    80%: the resistance brings the rate to 0, and the effect that adds the
    state hands over 0.8 all the same. *)
Lemma immunity_grows_with_count_witness :
  let target := Host.battler [] [(3, 1)] in
  let this := {| Host.certain := true; Host.luck := 1 |} in
  let effect := {| dataId := 3; value1 := 8 # 10 |} in
  getStateImmunity (Host.paramImmune EmptyString) target 3
  = Some (inject_Z 1 * 100 / 100)%Q /\
  (exists rate,
     (applyResistanceForAccumulateState (Host.paramImmune EmptyString)
        (fun a _ => Host.luck a) (fun _ _ => 1 # 2) Host.eval
        this (8 # 10) target 3).2 = Some rate /\
     (rate == 0)%Q) /\
  normalStateAccumulation (Host.paramImmune EmptyString) Host.certain
    (fun a _ => Host.luck a) (fun _ _ => 1 # 2) Host.eval this target effect
  = ([], Some (8 # 10)).
Proof.
  intros target this effect.
  destruct (immunity_grows_with_count (Host.paramImmune EmptyString)
              Host.certain
              (fun a _ => Host.luck a) (fun _ _ => 1 # 2) Host.eval
              this (8 # 10)%Q target 3) as (Himm & _ & Hfull & Hcertain).
  - eexists. reflexivity.
  - split_and!.
    + exact Himm.
    + apply Hfull.
      * reflexivity.
      * vm_compute. discriminate.
      * right. reflexivity.
    + apply (Hcertain eq_refl eq_refl effect). reflexivity.
Defined.

(** Taking 1 off an accumulation of 0.4 leaves -0.6 in the table. *)
Lemma accumulation_has_no_floor_witness :
  let this := Host.battler [(3, 4 # 10)] [] in
  let args :=
    {| Args.actorId := 1; Args.enemyIndex := -1;
       Args.stateId := 3; Args.rate := -100 |} in
  let w := {| gameActors := {[1 := this]}; gameTroop := [] |} in
  (storedAccumulation
     (accumulateState Host.dataStates Host.isStateAffected Host.addState
        3 (-1) this).2 3 < 0)%Q /\
  gameActors (ACCUMULATE Host.dataStates Host.isStateAffected Host.addState args w)
    !! 1
  = Some (accumulateState Host.dataStates Host.isStateAffected Host.addState
            3 (inject_Z (-100) / 100) this).2.
Proof.
  intros this args w.
  destruct (accumulation_has_no_floor Host.dataStates Host.isStateAffected
              Host.addState host_addState_keepsAccumulation 3 eq_refl)
    as (_ & Hbelow & Hactor & _).
  split.
  - apply Hbelow; reflexivity.
  - apply (Hactor args w this); [reflexivity | vm_compute; split; discriminate
                                 | reflexivity].
Defined.

(** ** Where the code departs from the description *)

(** C2: a certain hit with the CertainHit parameter on hands an infliction
    of 200% to [accumulateState] as 2, outside [0, 1]. *)
Lemma certain_hit_rate_exceeds_one :
  let target := Host.battler [] [] in
  let effect := {| dataId := 3; value1 := 2 |} in
  let this := {| Host.certain := true; Host.luck := 1 |} in
  isStateAccumulate Host.dataStates 3 = true /\
  (normalStateAccumulation Host.param Host.certain
     (fun a _ => Host.luck a) (fun _ _ => 1%Q) Host.eval this target effect).2
  = Some 2%Q /\
  ~ (0 <= 2 <= 1)%Q /\
  exists target',
    (itemEffectAddNormalState Host.dataStates Host.param Host.isStateAffected
       Host.addState Host.certain (fun a _ => Host.luck a) (fun _ _ => 1%Q)
       (fun _ target => target) (fun _ target _ => target) Host.eval
       this target effect).2 = Some target' /\
    accumulationEntry target' 3 = Some (0 + 2)%Q.
Proof.
  intros target effect this. split_and!.
  - reflexivity.
  - reflexivity.
  - intros [_ Hle]. vm_compute in Hle. congruence.
  - eexists. split; reflexivity.
Qed.

(** C3: on a certain hit of 50% with a luck factor of 0.5, the luck
    correction on and no immunity, the rate is 0.5 and not the 0.25 that
    luck, immunity and clamp would give. *)
Lemma certain_hit_skips_luck_and_clamp :
  let target := Host.battler [] [] in
  let effect := {| dataId := 3; value1 := 1 # 2 |} in
  let this := {| Host.certain := true; Host.luck := 1 # 2 |} in
  LuckAdjust Host.param = true /\
  getStateImmunity Host.param target 3 = Some 0%Q /\
  exists rate,
    (normalStateAccumulation Host.param Host.certain
       (fun a _ => Host.luck a) (fun _ _ => 1%Q) Host.eval this target effect).2
    = Some rate /\
    ~ (rate ==
       clamp (applyLuck Host.param (fun a _ => Host.luck a) this target (1 # 2)
              * (1 - 0)) 0 1)%Q.
Proof.
  intros target effect this. split_and!; [reflexivity | reflexivity |].
  eexists. split; [reflexivity |]. vm_compute. discriminate.
Qed.

(** C4: with a formula that raises, an infliction of 0.5 gives a rate of
    0.5, not 0. *)
Lemma failed_formula_rate_is_not_zero :
  let target := Host.battler [] [] in
  let this := {| Host.certain := false; Host.luck := 1 |} in
  Host.eval "a - b)" (1 # 2) (1 # 2) = Raises "SyntaxError: Unexpected identifier" /\
  exists log rate,
    applyResistanceForAccumulateState (Host.paramFormula "a - b)")
      (fun a _ => Host.luck a) (fun _ _ => 1 # 2) Host.eval this (1 # 2) target 3
    = (log, Some rate) /\
    log <> [] /\
    (rate == 1 # 2)%Q /\
    ~ (rate == 0)%Q.
Proof.
  intros target this. split; [reflexivity |].
  eexists _, _. split_and!.
  - reflexivity.
  - discriminate.
  - reflexivity.
  - vm_compute. discriminate.
Qed.

(** C5: [clearStates] on a battler with state 3 active, accumulated to
    1.05 and triggered once: the state goes, both entries stay. *)
Lemma clearStates_leaves_tables_filled :
  let this := mkBattler [3] (Some {[3 := 105 # 100]}) (Some {[3 := 1]}) in
  let this' := clearStates Host.clearStates this in
  core this' = [] /\
  _stateAccumulations this' <> Some ∅ /\
  _stateImmunity this' <> Some ∅ /\
  accumulationEntry this' 3 = Some (105 # 100) /\
  immunityEntry this' 3 = Some 1.
Proof.
  intros this this'. split_and!; try reflexivity.
  - intros Hempty. apply (f_equal (fun t => t ≫= (fun m : gmap Z Q => m !! 3)))
      in Hempty. vm_compute in Hempty. discriminate.
  - intros Hempty. apply (f_equal (fun t => t ≫= (fun m : gmap Z Z => m !! 3)))
      in Hempty. vm_compute in Hempty. discriminate.
Qed.

(** C6: [clearStates] on a battler with state 3 active and accumulated to
    1.05: the state leaves the active set, as it does on death or on a
    clear-all effect, and its stored accumulation is still 1.05, not 0. *)
Lemma clearStates_keeps_accumulation_of_removed_state :
  let this := mkBattler [3] (Some {[3 := 105 # 100]}) (Some {[3 := 1]}) in
  let this' := clearStates Host.clearStates this in
  Host.isStateAffected (core this) 3 = true /\
  Host.isStateAffected (core this') 3 = false /\
  getStateAccumulation this' 3 = Some (105 # 100) /\
  ~ (storedAccumulation this' 3 == 0)%Q.
Proof.
  intros this this'. split_and!; try reflexivity.
  vm_compute. discriminate.
Qed.

(** C9: with an ImmunityRate of 100 and the state already triggered, a
    certain hit still hands over its infliction of 0.5; and after two
    triggers a formula value of -0.3 comes out as a rate of 0.3. *)
Lemma full_immunity_rate_is_not_zero :
  (let target := Host.battler [] [(3, 1)] in
   let effect := {| dataId := 3; value1 := 1 # 2 |} in
   let this := {| Host.certain := true; Host.luck := 1 |} in
   exists rate,
     (normalStateAccumulation (Host.paramImmune EmptyString) Host.certain
        (fun a _ => Host.luck a) (fun _ _ => 1%Q) Host.eval this target effect).2
     = Some rate /\
     ~ (rate == 0)%Q) /\
  (let target := Host.battler [] [(3, 2)] in
   let this := {| Host.certain := false; Host.luck := 1 |} in
   exists rate,
     (applyResistanceForAccumulateState (Host.paramImmune "a - (1.0 - b)")
        (fun a _ => Host.luck a) (fun _ _ => 1 # 2) Host.eval
        this (2 # 10) target 3).2
     = Some rate /\
     (rate == 3 # 10)%Q /\
     ~ (rate == 0)%Q).
Proof.
  split.
  - intros target effect this. eexists. split; [reflexivity |].
    vm_compute. discriminate.
  - intros target this. eexists. split_and!.
    + reflexivity.
    + reflexivity.
    + vm_compute. discriminate.
Qed.

(** ** More of the host's side, and more concrete battlers *)

Lemma host_addsNoKey :
  hostAddsNoKey Host.addState Host.clearStates Host.eraseState
    Host.removeState Host.removeBattleStates.
Proof.
  unfold hostAddsNoKey, addsNoKey. split_and!; try (intros; assumption).
  intros stateId this k. unfold Host.addState.
  now destruct (Host.isStateAffected (core this) stateId).
Qed.

Lemma host_addState_keepsAccumulations :
  forall stateId, keepsAccumulations (Host.addState stateId).
Proof.
  intros stateId this k. unfold Host.addState.
  now destruct (Host.isStateAffected (core this) stateId).
Qed.

Lemma host_makeSuccess_keepsAccumulations (this : Host.Action) :
  keepsAccumulations (Host.makeSuccess this).
Proof. intros target k. reflexivity. Qed.

Lemma host_makeSuccess_keepsImmunity (this : Host.Action) :
  keepsImmunity (Host.makeSuccess this).
Proof. intros target. split; auto. Qed.

Lemma host_clearStates_clears :
  forall (this : Game_Battler Host.Core) stateId,
    Host.isStateAffected (core (Host.clearStates this)) stateId = false.
Proof.
  intros this stateId. reflexivity.
Qed.

(** State 3 stands at 0.1; a rate of 0.4 leaves it inactive at 0.5, a
    further 0.65 activates it at 1.15. *)
Lemma accumulateState_twice_witness :
  let this := Host.battler [(3, 1 # 10)] [] in
  let first :=
    accumulateState Host.dataStates Host.isStateAffected Host.addState
      3 (4 # 10) this in
  let second :=
    accumulateState Host.dataStates Host.isStateAffected Host.addState
      3 (65 # 100) first.2 in
  accumulationEntry second.2 3
  = Some (storedAccumulation this 3 + (4 # 10) + (65 # 100))%Q /\
  second.1 = true.
Proof.
  intros this first second.
  destruct (accumulateState_twice Host.dataStates Host.isStateAffected
              Host.addState host_addState_keepsAccumulation
              3 (4 # 10)%Q (65 # 100)%Q this eq_refl)
    as (_ & Hentry & Hresult).
  split; [exact Hentry |].
  apply Hresult. split; [reflexivity | vm_compute; discriminate].
Defined.

(** State 3 stands at 1.05 and is active; [clearStates], then a rate of
    0. *)
Lemma accumulateState_after_clearStates_witness :
  let this := mkBattler [3] (Some {[3 := 105 # 100]}) (Some {[3 := 1]}) in
  (accumulateState Host.dataStates Host.isStateAffected Host.addState 3 0
     (clearStates Host.clearStates this)).1 = true /\
  immunityCount
    (accumulateState Host.dataStates Host.isStateAffected Host.addState 3 0
       (clearStates Host.clearStates this)).2 3
  = immunityCount this 3 + 1.
Proof.
  intros this.
  apply (accumulateState_after_clearStates Host.dataStates Host.isStateAffected
           Host.addState Host.clearStates host_addState_keepsImmunity
           host_clearStates_keepsTables 3 0%Q this).
  - exact host_clearStates_clears.
  - reflexivity.
  - vm_compute. discriminate.
Defined.

Lemma immunity_counts_activations_witness :
  let this := Host.battler [(3, 4 # 10)] [] in
  let this' :=
    (accumulateState Host.dataStates Host.isStateAffected Host.addState
       3 (65 # 100) this).2 in
  perform Host.dataStates Host.param Host.isStateAffected Host.addState
    Host.clearStates Host.eraseState Host.removeState Host.removeBattleStates
    (OpAccumulateState 3 (65 # 100)) this = Some this' /\
  immunityCount this' 3 = immunityCount this 3 + 1 /\
  immunityCount this' 4 = immunityCount this 4 + 0.
Proof.
  intros this this'.
  assert (perform Host.dataStates Host.param Host.isStateAffected Host.addState
            Host.clearStates Host.eraseState Host.removeState
            Host.removeBattleStates (OpAccumulateState 3 (65 # 100)) this
          = Some this') as Hdone by reflexivity.
  split_and!.
  - exact Hdone.
  - exact (immunity_counts_activations Host.dataStates Host.param
             Host.isStateAffected Host.addState Host.clearStates Host.eraseState
             Host.removeState Host.removeBattleStates
             host_addState_keepsImmunity host_clearStates_keepsTables
             host_eraseState_keepsImmunity host_removeState_keepsImmunity
             host_removeBattleStates_keepsImmunity
             (OpAccumulateState 3 (65 # 100)) this this' 3 Hdone).
  - exact (immunity_counts_activations Host.dataStates Host.param
             Host.isStateAffected Host.addState Host.clearStates Host.eraseState
             Host.removeState Host.removeBattleStates
             host_addState_keepsImmunity host_clearStates_keepsTables
             host_eraseState_keepsImmunity host_removeState_keepsImmunity
             host_removeBattleStates_keepsImmunity
             (OpAccumulateState 3 (65 # 100)) this this' 4 Hdone).
Defined.

Lemma operations_never_raise_witness :
  exists this',
    performAll Host.dataStates Host.paramReset Host.isStateAffected
      Host.addState Host.clearStates Host.eraseState Host.removeState
      Host.removeBattleStates
      [OpAccumulateState 3 (1 # 2); OpAccumulateState 9 1; OpRemoveBattleStates;
       OpAccumulateState 4 2; OpRemoveState 4; OpRemoveBattleStates]
      (mkBattler [] None None) = Some this' /\
    keysInDatabase Host.dataStates this'.
Proof.
  destruct (operations_never_raise Host.dataStates Host.paramReset
              Host.isStateAffected Host.addState Host.clearStates
              Host.eraseState Host.removeState Host.removeBattleStates
              [OpAccumulateState 3 (1 # 2); OpAccumulateState 9 1;
               OpRemoveBattleStates; OpAccumulateState 4 2; OpRemoveState 4;
               OpRemoveBattleStates]
              host_addsNoKey) as (Hfresh & _ & Hrun).
  exact (Hrun (mkBattler [] None None) (Hfresh [])).
Defined.

(** A table with a key 7 that is no state of the database. *)
Lemma removeBattleStates_raises_on_unknown_state_witness :
  let this := Host.battler [(3, 1 # 2); (7, 1 # 2)] [] in
  removeBattleStates Host.dataStates Host.paramReset Host.removeBattleStates this
  = None /\
  removeBattleStates Host.dataStates Host.param Host.removeBattleStates this
  = Some this.
Proof.
  intros this. split.
  - apply (removeBattleStates_raises_on_unknown_state Host.dataStates
             Host.paramReset Host.removeBattleStates this 7).
    + eexists. reflexivity.
    + reflexivity.
  - apply (removeBattleStates_raises_on_unknown_state Host.dataStates
             Host.param Host.removeBattleStates this 7).
    + eexists. reflexivity.
    + reflexivity.
Defined.

Lemma removeBattleStates_settles_witness :
  let this := Host.battler [(3, 6 # 10); (4, 6 # 10)] [] in
  exists this',
    removeBattleStates Host.dataStates Host.paramReset Host.removeBattleStates
      this = Some this' /\
    (storedAccumulation this' 3 <= 0)%Q /\
    removeBattleStates Host.dataStates Host.paramReset Host.removeBattleStates
      this' = Some this'.
Proof.
  intros this.
  destruct (removeBattleStates_returns Host.dataStates Host.paramReset
              Host.removeBattleStates this
              (host_entries_defined (6 # 10) (6 # 10) [])) as [this' Hdone].
  destruct (removeBattleStates_settles Host.dataStates Host.paramReset
              Host.removeBattleStates this this'
              (host_entries_defined (6 # 10) (6 # 10) []) eq_refl Hdone)
    as (Hflagged & _ & Hagain).
  exists this'. split_and!.
  - exact Hdone.
  - apply Hflagged. reflexivity.
  - apply Hagain. reflexivity.
Defined.

Lemma accumulation_restarts_after_removal_witness :
  let this := mkBattler [3] (Some {[3 := 105 # 100]}) (Some {[3 := 1]}) in
  accumulationEntry
    (accumulateState Host.dataStates Host.isStateAffected Host.addState 3 (2 # 10)
       (eraseState Host.eraseState 3 this)).2 3
  = Some (0 + (2 # 10))%Q /\
  accumulationEntry
    (accumulateState Host.dataStates Host.isStateAffected Host.addState 3 (2 # 10)
       (removeState Host.removeState 3 this)).2 3
  = Some (0 + (2 # 10))%Q.
Proof.
  intros this.
  apply (accumulation_restarts_after_removal Host.dataStates
           Host.isStateAffected Host.addState Host.eraseState Host.removeState
           host_addState_keepsAccumulation 3 (2 # 10)%Q this).
  reflexivity.
Defined.

(** An attack of 100% with the attack states 3, 5 and 4 on a fresh
    target. *)
Lemma itemEffectAddAttackState_accumulates_witness :
  let this := {| Host.certain := false; Host.luck := 1 |} in
  let target := Host.battler [] [] in
  let effect := {| dataId := 0; value1 := 1 |} in
  exists target',
    (itemEffectAddAttackState Host.dataStates Host.param Host.isStateAffected
       Host.addState (fun a _ => Host.luck a) (fun _ _ => 1%Q) Host.makeSuccess
       Host.eval Host.attackStates Host.attackStatesRate (fun _ => None)
       Host.itemEffect this target effect).2 = Some target' /\
    (storedAccumulation target 3 <= storedAccumulation target' 3)%Q /\
    accumulationEntry target' 5 = accumulationEntry target 5.
Proof.
  intros this target effect.
  destruct (itemEffectAddAttackState_accumulates Host.dataStates Host.param
              Host.isStateAffected Host.addState (fun a _ => Host.luck a)
              (fun _ _ => 1%Q) Host.makeSuccess Host.eval Host.attackStates
              Host.attackStatesRate (fun _ => None) Host.itemEffect
              host_addState_keepsImmunity this target effect
              host_addState_keepsAccumulations
              (host_makeSuccess_keepsAccumulations this)
              (host_makeSuccess_keepsImmunity this))
    as (target' & Hdone & Hbounds).
  - eexists. reflexivity.
  - exists target'. split_and!.
    + exact Hdone.
    + apply (Hbounds 3).
    + apply (Hbounds 5). vm_compute. intros Hin.
      repeat (apply elem_of_cons in Hin as [Hin | Hin]; [discriminate |]).
      now apply not_elem_of_nil in Hin.
Defined.

Lemma updateRate_redraws_on_change_witness :
  let _battler := Host.battler [(3, 4 # 10)] [] in
  let this := {| _rate := None; frames := [] |} in
  let this' := {| _rate := Some (Qmin (4 # 10) 1); frames := [Qmin (4 # 10) 1] |} in
  updateRate Host.getGaugeStateId this _battler = Some this' /\
  updateRate Host.getGaugeStateId this' _battler = Some this'.
Proof.
  intros _battler this this'.
  assert (updateRate Host.getGaugeStateId this _battler = Some this') as Hfirst
    by reflexivity.
  split; [exact Hfirst |].
  apply (updateRate_redraws_on_change Host.getGaugeStateId this this' _battler
           Hfirst).
Defined.

Lemma gauge_full_then_empty_witness :
  let _battler := Host.battler [(3, 4 # 10)] [] in
  let this := {| _rate := None; frames := [] |} in
  exists this' rate,
    updateRate Host.getGaugeStateId this
      (accumulateState Host.dataStates Host.isStateAffected Host.addState
         3 (65 # 100) _battler).2 = Some this' /\
    _rate this' = Some rate /\ (rate == 1)%Q.
Proof.
  intros _battler this.
  apply (gauge_full_then_empty Host.dataStates Host.isStateAffected
           Host.addState Host.eraseState Host.removeState Host.getGaugeStateId
           host_addState_keepsAccumulation this 3 (65 # 100)%Q _battler).
  - reflexivity.
  - reflexivity.
Defined.

(** One trigger against two, at an ImmunityRate of 100... *)
Lemma immunity_only_dampens_witness :
  let this := {| Host.certain := false; Host.luck := 1 |} in
  let target := Host.battler [] [(3, 0)] in
  let target' := Host.battler [] [(3, 1)] in
  exists rate rate',
    (applyResistanceForAccumulateState (Host.paramImmune EmptyString)
       (fun a _ => Host.luck a) (fun _ _ => 1 # 2) Host.eval
       this (8 # 10) target 3).2 = Some rate /\
    (applyResistanceForAccumulateState (Host.paramImmune EmptyString)
       (fun a _ => Host.luck a) (fun _ _ => 1 # 2) Host.eval
       this (8 # 10) target' 3).2 = Some rate' /\
    (rate' <= rate)%Q.
Proof.
  intros this target target'.
  apply (immunity_only_dampens (Host.paramImmune EmptyString)
           (fun a _ => Host.luck a) (fun _ _ => 1 # 2) Host.eval
           this (8 # 10)%Q target target' 3).
  - reflexivity.
  - eexists. reflexivity.
  - eexists. reflexivity.
  - vm_compute. discriminate.
  - vm_compute. discriminate.
  - vm_compute. discriminate.
Defined.

(** States 5 and -3 are not accumulative: they leave no key. *)
Lemma only_accumulative_states_accumulate_witness :
  exists this',
    performAll Host.dataStates Host.paramReset Host.isStateAffected
      Host.addState Host.clearStates Host.eraseState Host.removeState
      Host.removeBattleStates
      [OpAccumulateState 3 (1 # 2); OpAccumulateState 5 1; OpAccumulateState (-3) 1;
       OpClearStates; OpAccumulateState 4 2]
      (mkBattler [] None None) = Some this' /\
    keysAccumulative Host.dataStates this'.
Proof.
  assert (keysAccumulative Host.dataStates
            (mkBattler (Core := Host.Core) [] None None)) as Hfresh
    by (intros j [v Hv]; discriminate).
  eexists. split; [reflexivity |].
  apply (only_accumulative_states_accumulate Host.dataStates Host.paramReset
           Host.isStateAffected Host.addState Host.clearStates
           Host.eraseState Host.removeState Host.removeBattleStates
           host_addsNoKey
           [OpAccumulateState 3 (1 # 2); OpAccumulateState 5 1;
            OpAccumulateState (-3) 1; OpClearStates; OpAccumulateState 4 2]
           (mkBattler [] None None) _ Hfresh eq_refl).
Defined.

(** State 5 is not accumulative. *)
Lemma ACCUMULATE_other_state_changes_nothing_witness :
  let this := Host.battler [(3, 4 # 10)] [(3, 1)] in
  let args :=
    {| Args.actorId := 1; Args.enemyIndex := 0;
       Args.stateId := 5; Args.rate := 100 |} in
  let w := {| gameActors := {[1 := this]}; gameTroop := [this] |} in
  exists actor',
    gameActors (ACCUMULATE Host.dataStates Host.isStateAffected Host.addState
                  args w) !! 1 = Some actor' /\
    core actor' = core this /\
    forall k,
      accumulationEntry actor' k = accumulationEntry this k /\
      immunityEntry actor' k = immunityEntry this k.
Proof.
  intros this args w.
  apply (ACCUMULATE_other_state_changes_nothing Host.dataStates
           Host.isStateAffected Host.addState args w).
  - reflexivity.
  - reflexivity.
Defined.

Lemma itemEffectAddNormalState_accumulates_witness :
  let this := {| Host.certain := false; Host.luck := 1 |} in
  let target := Host.battler [(3, 9 # 10)] [] in
  let effect := {| dataId := 3; value1 := 8 # 10 |} in
  exists target',
    (itemEffectAddNormalState Host.dataStates Host.param Host.isStateAffected
       Host.addState Host.certain (fun a _ => Host.luck a) (fun _ _ => 1 # 2)
       Host.makeSuccess Host.itemEffect Host.eval this target effect).2
    = Some target' /\
    (storedAccumulation target 3 <= storedAccumulation target' 3)%Q /\
    (storedAccumulation target' 3 <= storedAccumulation target 3 + 1)%Q.
Proof.
  intros this target effect.
  destruct (itemEffectAddNormalState_accumulates Host.dataStates Host.param
              Host.isStateAffected Host.addState Host.certain
              (fun a _ => Host.luck a) (fun _ _ => 1 # 2) Host.makeSuccess
              Host.itemEffect Host.eval host_addState_keepsImmunity
              this target effect host_addState_keepsAccumulations
              (host_makeSuccess_keepsAccumulations this)
              (host_makeSuccess_keepsImmunity this)) as [_ Haccumulative].
  destruct Haccumulative as (target' & Hdone & Hbounds);
    [reflexivity | reflexivity | eexists; reflexivity |].
  exists target'. split_and!; [exact Hdone | apply (Hbounds 3) | apply (Hbounds 3)].
Defined.
